(** * MusicMasher: the track and timeline models and the playback scheduler

    A shallow embedding of the classes [AudioTrack] (the track model),
    [Timeline] (the timeline model), [AudioService] (the audio service) and
    [TimelineService] (the service that owns the timeline and drives the
    audio service), followed by the properties of the playback engine.

    Numbers.  The TypeScript [number]s handled here are times in seconds,
    gains and zoom factors.  Gains and the zoom factor are only clamped,
    stored and handed on; they are values of [Number.t], which has [NaN],
    the two infinities and the finite numbers, with [Math.max] and
    [Math.min] as JavaScript defines them.  Times (start times, durations,
    positions, clock readings) are modelled as exact rationals [Q], so a
    time that is [NaN] or infinite is outside the model: comparisons,
    [Math.max] and [Math.min] are exact on finite numbers; the arithmetic
    on times (the addition in [getEndTime], the subtraction for the buffer
    offset, the look-ahead sum and the wall-clock anchor) is exact in the
    model and rounded in the program, so the statements about a pass and
    about the transport name the program's own tests and expressions
    instead of relying on exact arithmetic or on a range of the result.

    Effects.  [AudioService] owns a Web Audio context and the map
    [activeSources].  The context is modelled by its clock and a counter of
    created nodes; every call that reaches the audio backend
    ([source.start], [source.stop]) is recorded as a [Command], so a method
    is a function from the service state to the new state and the commands
    it issued. *)

From Stdlib Require Import QArith Qminmax Lqa.
From stdpp Require Import gmap strings list.

(** ** JavaScript numbers and their comparisons *)

Module Num.
Local Open Scope Q_scope.

(** [x >= y] *)
Definition geb (x y : Q) : bool := Qle_bool y x.
(** [x < y] *)
Definition ltb (x y : Q) : bool := negb (Qle_bool y x).

(** [Math.max(...xs)] for an argument list that is not empty, the first
    argument given apart. *)
Definition max_of (x : Q) (xs : list Q) : Q := fold_left Qmax xs x.
End Num.

(** ** Numbers that are only clamped and stored: gains and the zoom *)

Module Number.
Local Open Scope Q_scope.

Inductive t :=
| NaN
| NegInfinity
| Finite (q : Q)
| Infinity.

(** [Math.max(a, b)] and [Math.min(a, b)]: [NaN] when an argument is. *)
Definition max (a b : t) : t :=
  match a, b with
  | NaN, _ => NaN
  | _, NaN => NaN
  | Infinity, _ => Infinity
  | _, Infinity => Infinity
  | NegInfinity, x => x
  | x, NegInfinity => x
  | Finite x, Finite y => Finite (Qmax x y)
  end.

Definition min (a b : t) : t :=
  match a, b with
  | NaN, _ => NaN
  | _, NaN => NaN
  | NegInfinity, _ => NegInfinity
  | _, NegInfinity => NegInfinity
  | Infinity, x => x
  | x, Infinity => x
  | Finite x, Finite y => Finite (Qmin x y)
  end.

(** A number within the closed range from [lo] to [hi]. *)
Definition within (lo hi : Q) (n : t) : Prop :=
  match n with
  | Finite q => lo <= q /\ q <= hi
  | _ => False
  end.

(** [stored] is [input] clamped into the range from [lo] to [hi]: the
    nearer bound for an input outside the range, the input within it. *)
Definition clamped (lo hi : Q) (input stored : t) : Prop :=
  match input with
  | NaN => False
  | NegInfinity => stored = Finite lo
  | Infinity => stored = Finite hi
  | Finite q =>
      (q <= lo /\ stored = Finite lo)
      \/ (hi <= q /\ stored = Finite hi)
      \/ (lo < q /\ q < hi /\ stored = Finite q)
  end.
End Number.

Coercion Number.Finite : Q >-> Number.t.

(** ** The track model: class [AudioTrack] *)

Record AudioBuffer := mkAudioBuffer { buffer_duration : Q }.

Record File := mkFile { file_name : string }.

Module AudioTrack.
Local Open Scope Q_scope.

Record t := mk {
  id : string;
  name : string;
  audioBuffer : option AudioBuffer;
  file : File;
  startTime : Q;
  duration : Q;
  volume : Number.t;
  isMuted : bool;
  isSolo : bool;
  color : string
}.

(** [new AudioTrack(file, id)]; the generated id (used when [id] is
    missing or empty) and the random colour are arguments. *)
Definition new (f : File) (given : option string) (generated : string)
    (randomColor : string) : t :=
  {| id := match given with
           | Some s => if String.eqb s "" then generated else s
           | None => generated
           end;
     name := file_name f;
     audioBuffer := None;
     file := f;
     startTime := 0;
     duration := 0;
     volume := 1;
     isMuted := false;
     isSolo := false;
     color := randomColor |}.

Definition setAudioBuffer (buffer : AudioBuffer) (tr : t) : t :=
  {| id := id tr; name := name tr; audioBuffer := Some buffer;
     file := file tr; startTime := startTime tr;
     duration := buffer_duration buffer; volume := volume tr;
     isMuted := isMuted tr; isSolo := isSolo tr; color := color tr |}.

Definition setStartTime (time : Q) (tr : t) : t :=
  {| id := id tr; name := name tr; audioBuffer := audioBuffer tr;
     file := file tr; startTime := Qmax 0 time;
     duration := duration tr; volume := volume tr;
     isMuted := isMuted tr; isSolo := isSolo tr; color := color tr |}.

Definition setVolume (v : Number.t) (tr : t) : t :=
  {| id := id tr; name := name tr; audioBuffer := audioBuffer tr;
     file := file tr; startTime := startTime tr;
     duration := duration tr; volume := Number.max 0 (Number.min 1 v);
     isMuted := isMuted tr; isSolo := isSolo tr; color := color tr |}.

Definition toggleMute (tr : t) : t :=
  {| id := id tr; name := name tr; audioBuffer := audioBuffer tr;
     file := file tr; startTime := startTime tr;
     duration := duration tr; volume := volume tr;
     isMuted := negb (isMuted tr); isSolo := isSolo tr; color := color tr |}.

Definition toggleSolo (tr : t) : t :=
  {| id := id tr; name := name tr; audioBuffer := audioBuffer tr;
     file := file tr; startTime := startTime tr;
     duration := duration tr; volume := volume tr;
     isMuted := isMuted tr; isSolo := negb (isSolo tr); color := color tr |}.

Definition getEndTime (tr : t) : Q := startTime tr + duration tr.

Definition clone (randomColor : string) (tr : t) : t :=
  let cloned := new (file tr) (Some (id tr ++ "_clone")%string) ""
                    randomColor in
  {| id := id cloned; name := name cloned; audioBuffer := audioBuffer tr;
     file := file cloned; startTime := startTime tr;
     duration := duration tr; volume := volume tr;
     isMuted := isMuted tr; isSolo := isSolo tr; color := color tr |}.
End AudioTrack.

(** ** The timeline model: class [Timeline] *)

Module Timeline.
Local Open Scope Q_scope.

Record t := mk {
  tracks : list AudioTrack.t;
  currentTime : Q;
  zoom : Number.t;
  isPlaying : bool;
  bpm : Q;
  duration : Q
}.

Definition new : t :=
  {| tracks := []; currentTime := 0; zoom := 50; isPlaying := false;
     bpm := 120; duration := 0 |}.

Definition updateDuration (tl : t) : t :=
  match List.map AudioTrack.getEndTime (tracks tl) with
  | [] =>
      {| tracks := tracks tl; currentTime := currentTime tl;
         zoom := zoom tl; isPlaying := isPlaying tl; bpm := bpm tl;
         duration := 0 |}
  | e :: es =>
      let maxEndTime := Num.max_of e es in
      {| tracks := tracks tl; currentTime := currentTime tl;
         zoom := zoom tl; isPlaying := isPlaying tl; bpm := bpm tl;
         duration := Qmax maxEndTime 60 |}
  end.

Definition with_tracks (trs : list AudioTrack.t) (tl : t) : t :=
  {| tracks := trs; currentTime := currentTime tl; zoom := zoom tl;
     isPlaying := isPlaying tl; bpm := bpm tl; duration := duration tl |}.

Definition addTrack (track : AudioTrack.t) (tl : t) : t :=
  updateDuration (with_tracks (tracks tl ++ [track]) tl).

Definition removeTrack (trackId : string) (tl : t) : t :=
  updateDuration
    (with_tracks
       (List.filter (fun track => negb (String.eqb (AudioTrack.id track) trackId))
                    (tracks tl))
       tl).

Definition getTrack (trackId : string) (tl : t) : option AudioTrack.t :=
  List.find (fun track => String.eqb (AudioTrack.id track) trackId) (tracks tl).

Definition setCurrentTime (time : Q) (tl : t) : t :=
  {| tracks := tracks tl; currentTime := Qmax 0 (Qmin time (duration tl));
     zoom := zoom tl; isPlaying := isPlaying tl; bpm := bpm tl;
     duration := duration tl |}.

Definition setZoom (z : Number.t) (tl : t) : t :=
  {| tracks := tracks tl; currentTime := currentTime tl;
     zoom := Number.max 10 (Number.min 200 z);
     isPlaying := isPlaying tl; bpm := bpm tl; duration := duration tl |}.

Definition play (tl : t) : t :=
  {| tracks := tracks tl; currentTime := currentTime tl; zoom := zoom tl;
     isPlaying := true; bpm := bpm tl; duration := duration tl |}.

Definition pause (tl : t) : t :=
  {| tracks := tracks tl; currentTime := currentTime tl; zoom := zoom tl;
     isPlaying := false; bpm := bpm tl; duration := duration tl |}.

Definition stop (tl : t) : t :=
  {| tracks := tracks tl; currentTime := 0; zoom := zoom tl;
     isPlaying := false; bpm := bpm tl; duration := duration tl |}.

Definition getActiveTracks (time : Q) (tl : t) : list AudioTrack.t :=
  List.filter
    (fun track =>
       Num.geb time (AudioTrack.startTime track)
       && Num.ltb time (AudioTrack.getEndTime track))
    (tracks tl).

Definition getSoloTracks (tl : t) : list AudioTrack.t :=
  List.filter AudioTrack.isSolo (tracks tl).

Definition hasAnySoloTracks (tl : t) : bool :=
  List.existsb AudioTrack.isSolo (tracks tl).

Definition clear (tl : t) : t :=
  {| tracks := []; currentTime := 0; zoom := zoom tl; isPlaying := false;
     bpm := bpm tl; duration := 0 |}.

(** The track objects are shared with the services, which change one in
    place through [getTrack]: the first track with the id is the one
    changed. *)
Fixpoint update_first (trackId : string) (f : AudioTrack.t -> AudioTrack.t)
    (trs : list AudioTrack.t) : list AudioTrack.t :=
  match trs with
  | [] => []
  | track :: rest =>
      if String.eqb (AudioTrack.id track) trackId then f track :: rest
      else track :: update_first trackId f rest
  end.

(** [TimelineService.updateTrackPosition]: reposition, then recompute. *)
Definition updateTrackPosition (trackId : string) (time : Q) (tl : t) : t :=
  match getTrack trackId tl with
  | Some _ =>
      updateDuration
        (with_tracks
           (update_first trackId (AudioTrack.setStartTime time) (tracks tl)) tl)
  | None => tl
  end.
End Timeline.

(** ** The audio service: class [AudioService] *)

(** An [AudioBufferSourceNode] wired as the code wires it: the buffer of its
    track, connected to a fresh gain node that holds the track's volume and
    feeds the master gain.  [source_node] and [gain_node] are the creation
    numbers of the two nodes in the audio context. *)
Record SourceNode := mkSourceNode {
  source_node : nat;
  source_buffer : AudioBuffer;
  gain_node : nat;
  gain_value : Number.t
}.

(** The calls that reach the audio backend.  [Start] is
    [source.start(when, offset)] and [Stop] is [source.stop()]; each is
    labelled with the track id the source is registered under. *)
Inductive Command :=
| Start (trackId : string) (source : SourceNode) (when offset : Q)
| Stop (trackId : string) (source : SourceNode).

Module AudioService.
Local Open Scope Q_scope.

Record t := mk {
  contextTime : Q;                          (* audioContext.currentTime *)
  nodesCreated : nat;
  masterGain : Number.t;                    (* masterGainNode.gain.value *)
  activeSources : gmap string SourceNode;
  endedListeners : gmap nat string          (* source node -> id to delete *)
}.

(** The constructor: a new context, its master gain node (gain 1). *)
Definition new (now : Q) : t :=
  {| contextTime := now; nodesCreated := 1; masterGain := 1;
     activeSources := ∅; endedListeners := ∅ |}.

Definition has (trackId : string) (s : t) : bool :=
  match activeSources s !! trackId with Some _ => true | None => false end.

Definition set (trackId : string) (source : SourceNode) (s : t) : t :=
  {| contextTime := contextTime s; nodesCreated := nodesCreated s;
     masterGain := masterGain s;
     activeSources := <[trackId := source]> (activeSources s);
     endedListeners := endedListeners s |}.

Definition delete (trackId : string) (s : t) : t :=
  {| contextTime := contextTime s; nodesCreated := nodesCreated s;
     masterGain := masterGain s;
     activeSources := base.delete trackId (activeSources s);
     endedListeners := endedListeners s |}.

(** [createBufferSource], [source.buffer = ...], [createGain],
    [gain.value = ...] and the two [connect]s. *)
Definition createSource (buffer : AudioBuffer) (vol : Number.t) (s : t)
    : t * SourceNode :=
  ({| contextTime := contextTime s; nodesCreated := (nodesCreated s + 2)%nat;
      masterGain := masterGain s; activeSources := activeSources s;
      endedListeners := endedListeners s |},
   {| source_node := nodesCreated s; source_buffer := buffer;
      gain_node := S (nodesCreated s); gain_value := vol |}).

Definition addEndedListener (source : SourceNode) (trackId : string) (s : t) : t :=
  {| contextTime := contextTime s; nodesCreated := nodesCreated s;
     masterGain := masterGain s; activeSources := activeSources s;
     endedListeners := <[source_node source := trackId]> (endedListeners s) |}.

(** The result of a method that returns nothing: the new state and the
    commands issued, in order. *)
Definition Result : Type := t * list Command.

Definition playTrack (track : AudioTrack.t) (timelineTime : Q)
    (contextStartTime : option Q) (s : t)
    : t * option SourceNode * list Command :=
  match AudioTrack.audioBuffer track with
  | None => (s, None, [])
  | Some buffer =>
      if AudioTrack.isMuted track then (s, None, [])
      else if Num.ltb timelineTime (AudioTrack.startTime track)
              || Num.geb timelineTime (AudioTrack.getEndTime track)
      then (s, None, [])
      else
        let '(s1, source) := createSource buffer (AudioTrack.volume track) s in
        let bufferOffset := Qmax 0 (timelineTime - AudioTrack.startTime track) in
        let startTime :=
          match contextStartTime with
          | Some c => c
          | None => contextTime s1 + (1 # 100)
          end in
        if Num.ltb bufferOffset (AudioTrack.duration track) then
          (set (AudioTrack.id track) source s1, Some source,
           [Start (AudioTrack.id track) source startTime bufferOffset])
        else (s1, None, [])
  end.

(** The filter of [playTracks], one early [return false] per line. *)
Definition tracksToStart (tracks : list AudioTrack.t) (currentTime : Q)
    (hasSoloTracks : bool) (s : t) : list AudioTrack.t :=
  List.filter
    (fun track =>
       if has (AudioTrack.id track) s then false
       else if negb (bool_decide (is_Some (AudioTrack.audioBuffer track))) then false
       else if AudioTrack.isMuted track then false
       else if hasSoloTracks && negb (AudioTrack.isSolo track) then false
       else Num.geb currentTime (AudioTrack.startTime track)
            && Num.ltb currentTime (AudioTrack.getEndTime track))
    tracks.

Record Prepared := mkPrepared {
  source : SourceNode;
  trackId : string;
  bufferOffset : Q
}.

(** The body of the first [forEach]: build the source of one track and
    push it on [sourcesToStart], unless the track is skipped. *)
Definition prepare (currentTime : Q) (acc : t * list Prepared)
    (track : AudioTrack.t) : t * list Prepared :=
  match AudioTrack.audioBuffer track with
  | None => acc
  | Some buffer =>
      let bufferOffset := Qmax 0 (currentTime - AudioTrack.startTime track) in
      if Num.geb bufferOffset (AudioTrack.duration track) then acc
      else
        let '(s1, source) :=
          createSource buffer (AudioTrack.volume track) (fst acc) in
        (s1, snd acc ++ [ {| source := source;
                             trackId := AudioTrack.id track;
                             bufferOffset := bufferOffset |} ])
  end.

(** The body of the second [forEach]: start, register, listen for the end. *)
Definition startSource (syncStartTime : Q) (acc : Result) (p : Prepared)
    : Result :=
  (addEndedListener (source p) (trackId p)
     (set (trackId p) (source p) (fst acc)),
   snd acc ++ [Start (trackId p) (source p) syncStartTime (bufferOffset p)]).

Definition playTracks (tracks : list AudioTrack.t) (currentTime : Q)
    (hasSoloTracks : bool) (s : t) : Result :=
  let toStart := tracksToStart tracks currentTime hasSoloTracks s in
  if (length toStart =? 0)%nat then (s, [])
  else
    let syncStartTime := contextTime s + (5 # 100) in
    let '(s1, sourcesToStart) :=
      fold_left (prepare currentTime) toStart (s, []) in
    fold_left (startSource syncStartTime) sourcesToStart (s1, []).

Definition updatePlayback (tracks : list AudioTrack.t) (currentTime : Q)
    (hasSoloTracks : bool) (s : t) : Result :=
  playTracks tracks currentTime hasSoloTracks s.

(** The listener that [playTracks] attaches: when the source ends, the
    entry of its track id is deleted (whatever source it holds by then). *)
Definition sourceEnded (source : SourceNode) (s : t) : t :=
  match endedListeners s !! source_node source with
  | Some trackId => delete trackId s
  | None => s
  end.

(** [stopAll]: stop every registered source, then clear the map.  The
    stops are listed in the key order of the map; JavaScript iterates in
    insertion order. *)
Definition stopAll (s : t) : Result :=
  ({| contextTime := contextTime s; nodesCreated := nodesCreated s;
      masterGain := masterGain s; activeSources := ∅;
      endedListeners := endedListeners s |},
   List.map (fun '(trackId, source) => Stop trackId source)
            (map_to_list (activeSources s))).

Definition stopTrack (trackId : string) (s : t) : Result :=
  match activeSources s !! trackId with
  | Some source => (delete trackId s, [Stop trackId source])
  | None => (s, [])
  end.

Definition setMasterVolume (v : Number.t) (s : t) : t :=
  {| contextTime := contextTime s; nodesCreated := nodesCreated s;
     masterGain := Number.max 0 (Number.min 1 v);
     activeSources := activeSources s;
     endedListeners := endedListeners s |}.

Definition getCurrentTime (s : t) : Q := contextTime s.

(** The ids a list of commands starts, in order. *)
Definition started (cmds : list Command) : list string :=
  flat_map (fun c => match c with
                     | Start trackId _ _ _ => [trackId]
                     | Stop _ _ => []
                     end) cmds.

(** The commands of a list that are stops. *)
Definition is_stop (c : Command) : bool :=
  match c with Stop _ _ => true | Start _ _ _ _ => false end.
End AudioService.

(** ** The mix-state resolver and the wanted set, in the words of the
       specification

    [audibleTracks_spec] follows section 4.3 of the specification: with a
    solo set that is not empty, exactly the soloed tracks are audible and
    mute is ignored; otherwise the tracks that are not muted.  It is the
    reference the scheduler's own selection is compared with. *)

Module Resolver.
Definition audibleTracks_spec (tracks : list AudioTrack.t) : list AudioTrack.t :=
  if List.existsb AudioTrack.isSolo tracks
  then List.filter AudioTrack.isSolo tracks
  else List.filter (fun track => negb (AudioTrack.isMuted track)) tracks.

Definition active_at (time : Q) (track : AudioTrack.t) : bool :=
  Num.geb time (AudioTrack.startTime track)
  && Num.ltb time (AudioTrack.getEndTime track).

(** [wanted = audibleTracks(tracks) ∩ activeTracksAt(position)]. *)
Definition wanted_spec (tracks : list AudioTrack.t) (position : Q)
    : list string :=
  List.map AudioTrack.id
    (List.filter (active_at position) (audibleTracks_spec tracks)).

(** What the filter of [playTracks] selects, the registry apart: a
    decoded, unmuted track, soloed when any solo exists, active at the
    position. *)
Definition eligible (hasSoloTracks : bool) (position : Q)
    (track : AudioTrack.t) : bool :=
  bool_decide (is_Some (AudioTrack.audioBuffer track))
  && negb (AudioTrack.isMuted track)
  && (negb hasSoloTracks || AudioTrack.isSolo track)
  && active_at position track.
End Resolver.

(** ** Vocabulary for the statements about a scheduling pass *)

Module Pass.
Local Open Scope Q_scope.

(** The second test of [playTracks], made in the first [forEach]: the
    track has a buffer and its offset is short of its duration. *)
Definition startable (currentTime : Q) (track : AudioTrack.t) : bool :=
  bool_decide (is_Some (AudioTrack.audioBuffer track))
  && Num.ltb (Qmax 0 (currentTime - AudioTrack.startTime track))
             (AudioTrack.duration track).

(** [p] is the prepared source of [track] at [currentTime]. *)
Definition from_track (currentTime : Q) (track : AudioTrack.t)
    (p : AudioService.Prepared) : Prop :=
  AudioService.trackId p = AudioTrack.id track
  /\ AudioService.bufferOffset p
     = Qmax 0 (currentTime - AudioTrack.startTime track)
  /\ AudioService.bufferOffset p < AudioTrack.duration track
  /\ AudioTrack.audioBuffer track
     = Some (source_buffer (AudioService.source p))
  /\ gain_value (AudioService.source p) = AudioTrack.volume track.

(** The command that starts a prepared source at [when]. *)
Definition start_of (when : Q) (p : AudioService.Prepared) : Command :=
  Start (AudioService.trackId p) (AudioService.source p) when
        (AudioService.bufferOffset p).

(** The registry after the prepared sources are registered in order. *)
Definition register (ps : list AudioService.Prepared)
    (m : gmap string SourceNode) : gmap string SourceNode :=
  fold_left (fun m p => <[AudioService.trackId p := AudioService.source p]> m)
            ps m.

(** The ids registered in a service. *)
Definition registered (s : AudioService.t) : gset string :=
  dom (AudioService.activeSources s).
End Pass.

(** ** What a pass starts *)

Module Wanted.
Local Open Scope Q_scope.

(** A track that a pass starts when its id is not registered: it passes
    the filter of [playTracks], the registry apart, and the test on the
    buffer offset that the first loop makes before it builds a source. *)
Definition starts (hasSoloTracks : bool) (position : Q)
    (track : AudioTrack.t) : bool :=
  Resolver.eligible hasSoloTracks position track
  && Num.ltb (Qmax 0 (position - AudioTrack.startTime track))
             (AudioTrack.duration track).
End Wanted.

(** ** Sample data, built through the constructors and setters *)

Module Sample.
Local Open Scope Q_scope.

(** An imported track: constructed, decoded, placed on the timeline. *)
Definition placed (trackId : string) (start len : Q) : AudioTrack.t :=
  AudioTrack.setStartTime start
    (AudioTrack.setAudioBuffer (mkAudioBuffer len)
       (AudioTrack.new (mkFile (trackId ++ ".wav")) (Some trackId) ""
                       "#4ECDC4")).

(** A fresh service whose context clock reads 0. *)
Definition service : AudioService.t := AudioService.new 0.

(** Tracks A (soloed and muted) and B (neither), both over [0, 5). *)
Definition soloMutedA : AudioTrack.t :=
  AudioTrack.toggleSolo (AudioTrack.toggleMute (placed "A" 0 5)).
Definition plainB : AudioTrack.t := placed "B" 0 5.

(** A track at offset 2 with duration 3. *)
Definition boundary : AudioTrack.t := placed "T" 2 3.

(** Tracks at offsets 4 and 12, each 20 seconds long. *)
Definition at4 : AudioTrack.t := placed "P" 4 20.
Definition at12 : AudioTrack.t := placed "R" 12 20.
End Sample.

(** ** The timeline service: class [TimelineService]

    The service owns the timeline and drives the audio service.  The wall
    clock [Date.now()] (milliseconds) is an argument of the methods that
    read it.  The 50 ms interval started by [play] is the subscription; its
    callback is [tick], and the [hasSoloTracks] constant the callback closes
    over is kept with the subscription.  [notifyUpdate] and
    [resumeContext] change nothing that is modelled. *)

Module TimelineService.
Local Open Scope Q_scope.

Record Subscription := mkSubscription {
  closed : bool;
  hasSoloTracks : bool
}.

Record t := mk {
  timeline : Timeline.t;
  audioService : AudioService.t;
  playbackSubscription : option Subscription;
  playbackStartTime : Q;
  pausedAt : Q
}.

Definition new (contextNow : Q) : t :=
  {| timeline := Timeline.new; audioService := AudioService.new contextNow;
     playbackSubscription := None; playbackStartTime := 0; pausedAt := 0 |}.

Definition with_timeline (tl : Timeline.t) (ts : t) : t :=
  {| timeline := tl; audioService := audioService ts;
     playbackSubscription := playbackSubscription ts;
     playbackStartTime := playbackStartTime ts; pausedAt := pausedAt ts |}.

Definition with_audio (a : AudioService.t) (ts : t) : t :=
  {| timeline := timeline ts; audioService := a;
     playbackSubscription := playbackSubscription ts;
     playbackStartTime := playbackStartTime ts; pausedAt := pausedAt ts |}.

(** [if (this.playbackSubscription) this.playbackSubscription.unsubscribe()] *)
Definition unsubscribe (ts : t) : t :=
  {| timeline := timeline ts; audioService := audioService ts;
     playbackSubscription :=
       match playbackSubscription ts with
       | Some sub => Some {| closed := true; hasSoloTracks := hasSoloTracks sub |}
       | None => None
       end;
     playbackStartTime := playbackStartTime ts; pausedAt := pausedAt ts |}.

(** The interval fires only while its subscription is open. *)
Definition live (ts : t) : bool :=
  match playbackSubscription ts with
  | Some sub => negb (closed sub)
  | None => false
  end.

(** [addTrack(file)], from the point where [loadAudioFile] settles:
    [decoded] is its result, [None] when it throws, and then [addTrack]
    throws too and the timeline is left as it was. *)
Definition addTrack (file : File) (decoded : option AudioBuffer)
    (generatedId randomColor : string) (ts : t) : option t :=
  let track := AudioTrack.new file None generatedId randomColor in
  match decoded with
  | None => None
  | Some audioBuffer =>
      let track := AudioTrack.setAudioBuffer audioBuffer track in
      let track :=
        match last (Timeline.tracks (timeline ts)) with
        | Some lastTrack =>
            AudioTrack.setStartTime (AudioTrack.getEndTime lastTrack) track
        | None => track
        end in
      Some (with_timeline (Timeline.addTrack track (timeline ts)) ts)
  end.

Definition removeTrack (trackId : string) (ts : t) : t * list Command :=
  let r := AudioService.stopTrack trackId (audioService ts) in
  (with_timeline (Timeline.removeTrack trackId (timeline ts))
     (with_audio (fst r) ts),
   snd r).

Definition updateTrackPosition (trackId : string) (startTime : Q) (ts : t) : t :=
  with_timeline (Timeline.updateTrackPosition trackId startTime (timeline ts)) ts.

Definition updateTrackVolume (trackId : string) (volume : Number.t) (ts : t)
    : t :=
  match Timeline.getTrack trackId (timeline ts) with
  | Some _ =>
      with_timeline
        (Timeline.with_tracks
           (Timeline.update_first trackId (AudioTrack.setVolume volume)
              (Timeline.tracks (timeline ts)))
           (timeline ts))
        ts
  | None => ts
  end.

Definition toggleTrackMute (trackId : string) (ts : t) : t * list Command :=
  match Timeline.getTrack trackId (timeline ts) with
  | Some _ =>
      let tl :=
        Timeline.with_tracks
          (Timeline.update_first trackId AudioTrack.toggleMute
             (Timeline.tracks (timeline ts)))
          (timeline ts) in
      if Timeline.isPlaying tl then
        let stopped := AudioService.stopTrack trackId (audioService ts) in
        let hasSoloTracks := Timeline.hasAnySoloTracks tl in
        let updated :=
          AudioService.updatePlayback (Timeline.tracks tl)
            (Timeline.currentTime tl) hasSoloTracks (fst stopped) in
        (with_timeline tl (with_audio (fst updated) ts),
         snd stopped ++ snd updated)
      else (with_timeline tl ts, [])
  | None => (ts, [])
  end.

Definition play (now : Q) (ts : t) : t * list Command :=
  if Timeline.isPlaying (timeline ts) then (ts, [])
  else
    let tl := Timeline.play (timeline ts) in
    let hasSoloTracks := Timeline.hasAnySoloTracks tl in
    let started :=
      AudioService.playTracks (Timeline.tracks tl) (Timeline.currentTime tl)
        hasSoloTracks (audioService ts) in
    ({| timeline := tl; audioService := fst started;
        playbackSubscription :=
          Some {| closed := false; hasSoloTracks := hasSoloTracks |};
        playbackStartTime := now - Timeline.currentTime tl * 1000;
        pausedAt := pausedAt ts |},
     snd started).

Definition pause (ts : t) : t * list Command :=
  if negb (Timeline.isPlaying (timeline ts)) then (ts, [])
  else
    let tl := Timeline.pause (timeline ts) in
    let stopped := AudioService.stopAll (audioService ts) in
    (unsubscribe
       {| timeline := tl; audioService := fst stopped;
          playbackSubscription := playbackSubscription ts;
          playbackStartTime := playbackStartTime ts;
          pausedAt := Timeline.currentTime tl |},
     snd stopped).

Definition stop (ts : t) : t * list Command :=
  let stopped := AudioService.stopAll (audioService ts) in
  (unsubscribe
     (with_timeline (Timeline.stop (timeline ts))
        (with_audio (fst stopped) ts)),
   snd stopped).

Definition toggleTrackSolo (trackId : string) (now : Q) (ts : t)
    : t * list Command :=
  match Timeline.getTrack trackId (timeline ts) with
  | Some _ =>
      let tl :=
        Timeline.with_tracks
          (Timeline.update_first trackId AudioTrack.toggleSolo
             (Timeline.tracks (timeline ts)))
          (timeline ts) in
      let ts1 := with_timeline tl ts in
      if Timeline.isPlaying tl then
        let paused := pause ts1 in
        let played := play now (fst paused) in
        (fst played, snd paused ++ snd played)
      else (ts1, [])
  | None => (ts, [])
  end.

(** The callback of the interval. *)
Definition tick (now : Q) (ts : t) : t * list Command :=
  match playbackSubscription ts with
  | Some sub =>
      if closed sub then (ts, [])
      else
        let elapsed := (now - playbackStartTime ts) / 1000 in
        let tl := Timeline.setCurrentTime elapsed (timeline ts) in
        let updated :=
          AudioService.updatePlayback (Timeline.tracks tl)
            (Timeline.currentTime tl) (hasSoloTracks sub) (audioService ts) in
        let ts1 := with_timeline tl (with_audio (fst updated) ts) in
        if Num.geb (Timeline.currentTime tl) (Timeline.duration tl) then
          let stopped := stop ts1 in
          (fst stopped, snd updated ++ snd stopped)
        else (ts1, snd updated)
  | None => (ts, [])
  end.

Definition seek (time now : Q) (ts : t) : t * list Command :=
  let wasPlaying := Timeline.isPlaying (timeline ts) in
  let paused := if wasPlaying then pause ts else (ts, []) in
  let ts1 :=
    with_timeline (Timeline.setCurrentTime time (timeline (fst paused)))
      (fst paused) in
  if wasPlaying then
    let played := play now ts1 in
    (fst played, snd paused ++ snd played)
  else (ts1, snd paused).

Definition setZoom (zoom : Number.t) (ts : t) : t :=
  with_timeline (Timeline.setZoom zoom (timeline ts)) ts.

Definition clearAll (ts : t) : t * list Command :=
  let stopped := stop ts in
  (with_timeline (Timeline.clear (timeline (fst stopped))) (fst stopped),
   snd stopped).

(** The audio context's clock reads [contextNow]. *)
Definition context_clock (contextNow : Q) (a : AudioService.t) : AudioService.t :=
  {| AudioService.contextTime := contextNow;
     AudioService.nodesCreated := AudioService.nodesCreated a;
     AudioService.masterGain := AudioService.masterGain a;
     AudioService.activeSources := AudioService.activeSources a;
     AudioService.endedListeners := AudioService.endedListeners a |}.

(** What can happen to the service: a call of one of its methods by a
    component, a firing of the interval, the end of a source, and the
    audio context's clock moving on. *)
Inductive Event :=
| OnAddTrack (file : File) (decoded : option AudioBuffer)
             (generatedId randomColor : string)
| OnRemoveTrack (trackId : string)
| OnUpdateTrackPosition (trackId : string) (startTime : Q)
| OnUpdateTrackVolume (trackId : string) (volume : Number.t)
| OnToggleTrackMute (trackId : string)
| OnToggleTrackSolo (trackId : string) (now : Q)
| OnPlay (now : Q)
| OnPause
| OnStop
| OnSeek (time now : Q)
| OnSetZoom (zoom : Number.t)
| OnClearAll
| OnTick (now : Q)
| OnSourceEnded (source : SourceNode)
| OnContextClock (contextNow : Q).

Definition handle (e : Event) (ts : t) : t * list Command :=
  match e with
  | OnAddTrack file decoded generatedId randomColor =>
      match addTrack file decoded generatedId randomColor ts with
      | Some ts' => (ts', [])
      | None => (ts, [])
      end
  | OnRemoveTrack trackId => removeTrack trackId ts
  | OnUpdateTrackPosition trackId startTime =>
      (updateTrackPosition trackId startTime ts, [])
  | OnUpdateTrackVolume trackId volume =>
      (updateTrackVolume trackId volume ts, [])
  | OnToggleTrackMute trackId => toggleTrackMute trackId ts
  | OnToggleTrackSolo trackId now => toggleTrackSolo trackId now ts
  | OnPlay now => play now ts
  | OnPause => pause ts
  | OnStop => stop ts
  | OnSeek time now => seek time now ts
  | OnSetZoom zoom => (setZoom zoom ts, [])
  | OnClearAll => clearAll ts
  | OnTick now => tick now ts
  | OnSourceEnded source =>
      (with_audio (AudioService.sourceEnded source (audioService ts)) ts, [])
  | OnContextClock contextNow =>
      (with_audio (context_clock contextNow (audioService ts)) ts, [])
  end.

(** The state after a sequence of events, from a new service. *)
Definition run (contextNow : Q) (events : list Event) : t :=
  fold_left (fun ts e => fst (handle e ts)) events (new contextNow).

(** The interval runs exactly while the timeline is playing, and nothing
    is registered while it is not. *)
Definition silent_when_idle (ts : t) : Prop :=
  live ts = Timeline.isPlaying (timeline ts)
  /\ (Timeline.isPlaying (timeline ts) = false ->
      AudioService.activeSources (audioService ts) = ∅).

(** The stored duration is the one [updateDuration] computes, and every
    track is decoded. *)
Definition well_formed (ts : t) : Prop :=
  Timeline.updateDuration (timeline ts) = timeline ts
  /\ Forall (fun track => is_Some (AudioTrack.audioBuffer track))
            (Timeline.tracks (timeline ts)).
End TimelineService.

(** * Properties *)

(** ** Numbers: comparisons and clamps *)

Section NumFacts.
Local Open Scope Q_scope.

Lemma geb_true (x y : Q) : Num.geb x y = true <-> y <= x.
Proof. unfold Num.geb. apply Qle_bool_iff. Qed.

Lemma ltb_true (x y : Q) : Num.ltb x y = true <-> x < y.
Proof.
  unfold Num.ltb. rewrite negb_true_iff. split.
  - intros H. apply Qnot_le_lt. intros Hle.
    apply Qle_bool_iff in Hle. congruence.
  - intros H. destruct (Qle_bool y x) eqn:E; [|reflexivity].
    apply Qle_bool_iff in E. exfalso. exact (Qlt_not_le _ _ H E).
Qed.

Lemma geb_false (x y : Q) : Num.geb x y = false <-> x < y.
Proof.
  rewrite <- ltb_true. unfold Num.ltb, Num.geb.
  destruct (Qle_bool y x); simpl; intuition congruence.
Qed.

Lemma ltb_false (x y : Q) : Num.ltb x y = false <-> y <= x.
Proof.
  rewrite <- geb_true. unfold Num.ltb, Num.geb.
  destruct (Qle_bool y x); simpl; intuition congruence.
Qed.

(** [Math.max] and [Math.min] return one of their arguments. *)
Lemma Qmax_either (x y : Q) : Qmax x y = x \/ Qmax x y = y.
Proof.
  unfold Qmax, GenericMinMax.gmax. destruct (x ?= y); auto.
Qed.

Lemma Qmax_lt_r (x y : Q) : x < y -> Qmax x y = y.
Proof.
  intros H. unfold Qmax, GenericMinMax.gmax.
  destruct (x ?= y) eqn:E; try reflexivity; exfalso.
  - apply Qeq_alt in E. lra.
  - apply Qgt_alt in E. lra.
Qed.

Lemma Qmax_ge_l (x y : Q) : y <= x -> Qmax x y = x.
Proof.
  intros H. unfold Qmax, GenericMinMax.gmax.
  destruct (x ?= y) eqn:E; try reflexivity.
  apply Qlt_alt in E. exfalso. exact (Qlt_not_le _ _ E H).
Qed.

Lemma Qmin_gt_r (x y : Q) : y < x -> Qmin x y = y.
Proof.
  intros H. unfold Qmin, GenericMinMax.gmin.
  destruct (x ?= y) eqn:E; try reflexivity; exfalso.
  - apply Qeq_alt in E. lra.
  - apply Qlt_alt in E. lra.
Qed.

Lemma Qmin_le_l (x y : Q) : x <= y -> Qmin x y = x.
Proof.
  intros H. unfold Qmin, GenericMinMax.gmin.
  destruct (x ?= y) eqn:E; try reflexivity.
  apply Qgt_alt in E. exfalso. exact (Qlt_not_le _ _ E H).
Qed.

(** The clamp [Math.max(lo, Math.min(hi, v))] for [lo < hi]. *)
Lemma clamp_spec (lo hi v : Q) :
  lo < hi ->
  let c := Qmax lo (Qmin hi v) in
  lo <= c /\ c <= hi /\
  ((v <= lo /\ c = lo) \/ (hi <= v /\ c = hi) \/ (lo < v /\ v < hi /\ c = v)).
Proof.
  intros Hlh c. subst c.
  destruct (Qlt_le_dec v hi) as [Hv|Hv].
  - rewrite (Qmin_gt_r hi v Hv).
    destruct (Qlt_le_dec lo v) as [Hl|Hl].
    + rewrite (Qmax_lt_r lo v Hl). repeat split; try lra.
      right. right. repeat split; assumption.
    + rewrite (Qmax_ge_l lo v Hl). repeat split; try lra.
      left. split; [assumption|reflexivity].
  - rewrite (Qmin_le_l hi v Hv), (Qmax_lt_r lo hi Hlh).
    repeat split; try lra.
    right. left. split; [assumption|reflexivity].
Qed.

(** The greatest of a non-empty argument list bounds every argument and
    is one of them. *)
Lemma max_of_spec (xs : list Q) : forall x,
  x <= Num.max_of x xs /\
  Forall (fun y => y <= Num.max_of x xs) xs /\
  (Num.max_of x xs = x \/ In (Num.max_of x xs) xs).
Proof.
  unfold Num.max_of.
  induction xs as [|y ys IH]; intros x; simpl.
  - split; [lra|]. split; [constructor|]. left. reflexivity.
  - destruct (IH (Qmax x y)) as (Hge & Hall & Hin).
    pose proof (Q.le_max_l x y) as Hl.
    pose proof (Q.le_max_r x y) as Hr.
    split; [lra|]. split.
    + constructor; [lra|assumption].
    + destruct Hin as [Heq|Hin]; [|right; right; assumption].
      rewrite Heq. destruct (Qmax_either x y) as [E|E]; rewrite E; auto.
Qed.
End NumFacts.

(** ** The track model *)

Section TrackFacts.
Local Open Scope Q_scope.

(** C10.  [toggleMute] is an involution and changes the [isMuted] field
    only: the id, name, audio buffer, file, start time, duration, volume,
    solo flag and colour of the track stay as they were.  The same holds
    of [toggleSolo] and the [isSolo] field. *)
Theorem toggle_involution_frame (tr : AudioTrack.t) :
  let m := AudioTrack.toggleMute tr in
  let so := AudioTrack.toggleSolo tr in
  (AudioTrack.toggleMute m = tr
   /\ AudioTrack.isMuted m = negb (AudioTrack.isMuted tr)
   /\ m = AudioTrack.mk (AudioTrack.id tr) (AudioTrack.name tr)
           (AudioTrack.audioBuffer tr) (AudioTrack.file tr)
           (AudioTrack.startTime tr) (AudioTrack.duration tr)
           (AudioTrack.volume tr) (AudioTrack.isMuted m)
           (AudioTrack.isSolo tr) (AudioTrack.color tr))
  /\
  (AudioTrack.toggleSolo so = tr
   /\ AudioTrack.isSolo so = negb (AudioTrack.isSolo tr)
   /\ so = AudioTrack.mk (AudioTrack.id tr) (AudioTrack.name tr)
            (AudioTrack.audioBuffer tr) (AudioTrack.file tr)
            (AudioTrack.startTime tr) (AudioTrack.duration tr)
            (AudioTrack.volume tr) (AudioTrack.isMuted tr)
            (AudioTrack.isSolo so) (AudioTrack.color tr)).
Proof.
  destruct tr as [i n b f st d v mu so c]; cbn.
  destruct mu, so; repeat split; reflexivity.
Qed.

(** The clamp [Math.max(lo, Math.min(hi, n))] on numbers, for [lo < hi]:
    every number but [NaN] ends up within the range, at the nearer bound or
    unchanged. *)
Lemma number_clamp_spec (lo hi : Q) (n : Number.t) :
  lo < hi ->
  n <> Number.NaN ->
  Number.within lo hi (Number.max lo (Number.min hi n))
  /\ Number.clamped lo hi n (Number.max lo (Number.min hi n)).
Proof.
  intros Hlh Hn. destruct n as [| |q|]; [congruence| | |]; cbn.
  - split; [split; lra|reflexivity].
  - destruct (clamp_spec lo hi q Hlh) as (H1 & H2 & Hc). cbv zeta in *.
    split; [split; assumption|].
    destruct Hc as [[Hq ->]|[[Hq ->]|(Hq1 & Hq2 & ->)]]; auto.
  - rewrite (Qmax_lt_r lo hi Hlh). split; [split; lra|reflexivity].
Qed.

(** C9.  The clamps miss [NaN]: [Math.min] and [Math.max] return [NaN]
    when an argument is [NaN], so [setZoom(NaN)] stores a zoom of [NaN] and
    [setVolume(NaN)] a volume of [NaN], which are in no range, against the
    comments of the code ("Between 10 and 200 pixels per second", "0 to
    1"). *)
Lemma clamp_stores_NaN :
  Timeline.zoom (Timeline.setZoom Number.NaN Timeline.new) = Number.NaN
  /\ ~ Number.within 10 200
         (Timeline.zoom (Timeline.setZoom Number.NaN Timeline.new))
  /\ AudioTrack.volume (AudioTrack.setVolume Number.NaN Sample.plainB)
     = Number.NaN
  /\ ~ Number.within 0 1
         (AudioTrack.volume (AudioTrack.setVolume Number.NaN Sample.plainB)).
Proof.
  repeat split; try reflexivity; cbn; intros H; exact H.
Qed.

(** X29.  For every input other than [NaN], the infinities
    included, [setZoom] stores the value clamped into [10, 200] and
    [setVolume] stores the value clamped into [0, 1]: the stored value is
    within the bounds, it is the lower bound for an input at or below it,
    the upper bound for an input at or above it, and the input itself in
    between.  [setZoom(500)] stores 200, [setZoom(1)] stores 10 and
    [setVolume(-0.5)] stores 0. *)
Theorem clamping_at_the_mutation_boundary
    (z v : Number.t) (tl : Timeline.t) (tr : AudioTrack.t) :
  z <> Number.NaN ->
  v <> Number.NaN ->
  let z' := Timeline.zoom (Timeline.setZoom z tl) in
  let v' := AudioTrack.volume (AudioTrack.setVolume v tr) in
  (Number.within 10 200 z' /\ Number.clamped 10 200 z z')
  /\ (Number.within 0 1 v' /\ Number.clamped 0 1 v v')
  /\ Timeline.zoom (Timeline.setZoom 500 tl) = 200
  /\ Timeline.zoom (Timeline.setZoom 1 tl) = 10
  /\ AudioTrack.volume (AudioTrack.setVolume (- (1 # 2)) tr) = 0.
Proof.
  intros Hz Hv. cbn. split; [|split].
  - apply number_clamp_spec; [reflexivity|exact Hz].
  - apply number_clamp_spec; [reflexivity|exact Hv].
  - repeat split; reflexivity.
Qed.

Lemma clamping_at_the_mutation_boundary_witness :
  Number.Finite 500 <> Number.NaN
  /\ Number.Infinity <> Number.NaN
  /\ Number.within 10 200
       (Timeline.zoom (Timeline.setZoom (Number.Finite 500) Timeline.new))
  /\ Number.within 0 1
       (AudioTrack.volume (AudioTrack.setVolume Number.Infinity Sample.plainB)).
Proof.
  assert (H1 : Number.Finite 500 <> Number.NaN) by discriminate.
  assert (H2 : Number.Infinity <> Number.NaN) by discriminate.
  split; [exact H1|]. split; [exact H2|].
  destruct (clamping_at_the_mutation_boundary (Number.Finite 500)
              Number.Infinity Timeline.new Sample.plainB H1 H2)
    as ((Hz & _) & (Hv & _) & _).
  split; [exact Hz|exact Hv].
Defined.
End TrackFacts.

(** ** The timeline model *)

Section TimelineFacts.
Local Open Scope Q_scope.

Lemma active_at_iff (time : Q) (track : AudioTrack.t) :
  Resolver.active_at time track = true <->
  AudioTrack.startTime track <= time
  /\ time < AudioTrack.startTime track + AudioTrack.duration track.
Proof.
  unfold Resolver.active_at, AudioTrack.getEndTime.
  rewrite andb_true_iff, geb_true, ltb_true. reflexivity.
Qed.

(** C6.  [getActiveTracks(t)] keeps exactly the tracks of the timeline
    whose half-open interval [startTime, startTime + duration) contains
    [t].  A track at offset 2 with duration 3 is active at 4.999 and is
    not active at 5. *)
Theorem getActiveTracks_half_open (tl : Timeline.t) (time : Q) :
  (forall track,
     In track (Timeline.getActiveTracks time tl) <->
     In track (Timeline.tracks tl)
     /\ AudioTrack.startTime track <= time
     /\ time < AudioTrack.startTime track + AudioTrack.duration track)
  /\ Timeline.getActiveTracks (4999 # 1000)
       (Timeline.addTrack Sample.boundary tl)
     = Timeline.getActiveTracks (4999 # 1000) tl ++ [Sample.boundary]
  /\ Timeline.getActiveTracks 5 (Timeline.addTrack Sample.boundary tl)
     = Timeline.getActiveTracks 5 tl.
Proof.
  split; [|split].
  - intros track. unfold Timeline.getActiveTracks.
    rewrite filter_In. fold (Resolver.active_at time track).
    rewrite active_at_iff. reflexivity.
  - unfold Timeline.getActiveTracks, Timeline.addTrack, Timeline.updateDuration.
    destruct (List.map _ _); cbn [Timeline.tracks Timeline.with_tracks];
      rewrite List.filter_app; reflexivity.
  - unfold Timeline.getActiveTracks, Timeline.addTrack, Timeline.updateDuration.
    destruct (List.map _ _); cbn [Timeline.tracks Timeline.with_tracks];
      rewrite List.filter_app; cbn; rewrite app_nil_r; reflexivity.
Qed.

(** C3, as stated, fails on the empty timeline: [updateDuration] returns
    early with duration 0, so a new timeline, and one whose only track
    has been removed, report 0 and not 60. *)
Lemma updateDuration_empty_is_not_60 :
  Timeline.tracks Timeline.new = []
  /\ Timeline.duration (Timeline.updateDuration Timeline.new) = 0
  /\ ~ Timeline.duration (Timeline.updateDuration Timeline.new) == 60
  /\ Timeline.duration
       (Timeline.removeTrack "T" (Timeline.addTrack Sample.boundary Timeline.new))
     = 0.
Proof.
  repeat split; try reflexivity. cbn. intros H. discriminate H.
Qed.

(** C3, amended.  After [updateDuration] the duration of a timeline
    without tracks is 0; the duration of a timeline with at least one
    track is the greater of 60 and the greatest end time: it is at least
    60, at least every track's end time, and it is 60 or the end time of
    one of the tracks; so it is 60 when every track ends by 60 seconds.
    Adding a track always yields a duration of at least 60. *)
Theorem updateDuration_floor (tl : Timeline.t) :
  let d := Timeline.duration (Timeline.updateDuration tl) in
  (Timeline.tracks tl = [] -> d = 0)
  /\ (Timeline.tracks tl <> [] ->
      60 <= d
      /\ Forall (fun track => AudioTrack.getEndTime track <= d)
                (Timeline.tracks tl)
      /\ (d = 60 \/ exists track,
             In track (Timeline.tracks tl) /\ d = AudioTrack.getEndTime track)
      /\ (Forall (fun track => AudioTrack.getEndTime track <= 60)
                 (Timeline.tracks tl) -> d == 60))
  /\ (forall track, 60 <= Timeline.duration (Timeline.addTrack track tl)).
Proof.
  assert (Hne : forall tl', Timeline.tracks tl' <> [] ->
    let d := Timeline.duration (Timeline.updateDuration tl') in
    60 <= d
    /\ Forall (fun track => AudioTrack.getEndTime track <= d)
              (Timeline.tracks tl')
    /\ (d = 60 \/ exists track,
           In track (Timeline.tracks tl') /\ d = AudioTrack.getEndTime track)).
  { intros tl' Hne. unfold Timeline.updateDuration.
    destruct (Timeline.tracks tl') as [|t0 ts] eqn:Etr; [congruence|].
    cbn [List.map Timeline.duration].
    destruct (max_of_spec (List.map AudioTrack.getEndTime ts)
                (AudioTrack.getEndTime t0)) as (Hge & Hall & Hin).
    set (m := Num.max_of _ _) in *.
    pose proof (Q.le_max_l m 60) as Hl.
    pose proof (Q.le_max_r m 60) as Hr.
    split; [exact Hr|]. split.
    - constructor; [lra|].
      rewrite Forall_map in Hall.
      eapply Forall_impl; [exact Hall|]. cbn. intros a Ha. lra.
    - destruct (Qmax_either m 60) as [E|E]; rewrite E; [|left; reflexivity].
      right. destruct Hin as [Hm|Hm].
      + exists t0. split; [left; reflexivity|exact Hm].
      + apply in_map_iff in Hm. destruct Hm as (tr & Htr & Hin).
        exists tr. split; [right; exact Hin|symmetry; exact Htr]. }
  cbv zeta. split; [|split].
  - intros He. unfold Timeline.updateDuration. rewrite He. reflexivity.
  - intros Hn. destruct (Hne tl Hn) as (H60 & Hall & Hin).
    repeat split; try assumption.
    intros Hle. destruct Hin as [E|(tr & Htr & E)]; [rewrite E; reflexivity|].
    rewrite List.Forall_forall in Hle. specialize (Hle tr Htr).
    rewrite <- E in Hle. apply Qle_antisym; assumption.
  - intros track. unfold Timeline.addTrack.
    apply Hne. cbn. destruct (Timeline.tracks tl); discriminate.
Qed.

Lemma updateDuration_floor_witness :
  (Timeline.tracks Timeline.new = []
   /\ Timeline.duration (Timeline.updateDuration Timeline.new) = 0)
  /\ (Timeline.tracks (Timeline.addTrack Sample.boundary Timeline.new) <> []
      /\ Forall (fun track => AudioTrack.getEndTime track <= 60)
                (Timeline.tracks (Timeline.addTrack Sample.boundary Timeline.new))
      /\ Timeline.duration
           (Timeline.updateDuration
              (Timeline.addTrack Sample.boundary Timeline.new))
         == 60).
Proof.
  assert (Hne : Timeline.tracks (Timeline.addTrack Sample.boundary Timeline.new)
                <> []) by (cbn; discriminate).
  assert (Hall : Forall (fun track => AudioTrack.getEndTime track <= 60)
                   (Timeline.tracks
                      (Timeline.addTrack Sample.boundary Timeline.new)))
    by (cbn; repeat constructor; cbn; discriminate).
  split; [split; [reflexivity|]|split; [exact Hne|split; [exact Hall|]]].
  - apply (updateDuration_floor Timeline.new). reflexivity.
  - apply (updateDuration_floor (Timeline.addTrack Sample.boundary Timeline.new));
      assumption.
Defined.
End TimelineFacts.

(** ** The audio service: one scheduling pass *)

Section PassFacts.
Local Open Scope Q_scope.

Lemma has_true (trackId : string) (s : AudioService.t) :
  AudioService.has trackId s = true <-> trackId ∈ Pass.registered s.
Proof.
  unfold AudioService.has, Pass.registered. rewrite elem_of_dom.
  destruct (AudioService.activeSources s !! trackId) as [src|].
  - split; [eauto|reflexivity].
  - split; [discriminate|]. intros [x Hx]. discriminate.
Qed.

Lemma has_false (trackId : string) (s : AudioService.t) :
  AudioService.has trackId s = false <-> trackId ∉ Pass.registered s.
Proof.
  rewrite <- has_true. destruct (AudioService.has trackId s); intuition congruence.
Qed.

(** A track that is active at the position has an offset short of its
    duration: the second test never rejects what the filter kept. *)
Lemma active_offset_in_range (time : Q) (track : AudioTrack.t) :
  Resolver.active_at time track = true ->
  Qmax 0 (time - AudioTrack.startTime track) < AudioTrack.duration track.
Proof.
  rewrite active_at_iff. intros [Hs He].
  apply Q.max_lub_lt; lra.
Qed.

(** *** The first loop: preparing the sources *)

Lemma prepare_step (currentTime : Q)
    (acc : AudioService.t * list AudioService.Prepared)
    (track : AudioTrack.t) :
  (Pass.startable currentTime track = false
   /\ AudioService.prepare currentTime acc track = acc)
  \/ (Pass.startable currentTime track = true
      /\ exists s1 p,
           AudioService.prepare currentTime acc track = (s1, snd acc ++ [p])
           /\ Pass.from_track currentTime track p
           /\ AudioService.activeSources s1
              = AudioService.activeSources (fst acc)
           /\ AudioService.contextTime s1
              = AudioService.contextTime (fst acc)).
Proof.
  unfold AudioService.prepare, Pass.startable.
  destruct (AudioTrack.audioBuffer track) as [buffer|] eqn:Ebuf.
  2:{ left. split; [|reflexivity].
      rewrite bool_decide_eq_false_2 by (intros [x Hx]; discriminate).
      reflexivity. }
  rewrite bool_decide_eq_true_2 by eauto. cbn [andb].
  destruct (Num.geb (Qmax 0 (currentTime - AudioTrack.startTime track))
              (AudioTrack.duration track)) eqn:Eoff.
  - left. split; [|reflexivity].
    apply ltb_false. apply geb_true. exact Eoff.
  - right. split; [apply ltb_true; apply geb_false; exact Eoff|].
    cbn [AudioService.createSource].
    eexists _, _. split; [reflexivity|].
    unfold Pass.from_track. cbn.
    repeat split; try reflexivity; [|exact Ebuf].
    apply geb_false. exact Eoff.
Qed.

Lemma prepare_fold_spec (currentTime : Q) (trs : list AudioTrack.t) :
  forall acc : AudioService.t * list AudioService.Prepared,
  let r := fold_left (AudioService.prepare currentTime) trs acc in
  AudioService.activeSources (fst r) = AudioService.activeSources (fst acc)
  /\ AudioService.contextTime (fst r) = AudioService.contextTime (fst acc)
  /\ List.map AudioService.trackId (snd r)
     = List.map AudioService.trackId (snd acc)
       ++ List.map AudioTrack.id (List.filter (Pass.startable currentTime) trs)
  /\ (forall p, In p (snd r) ->
        In p (snd acc)
        \/ exists track, In track trs /\ Pass.from_track currentTime track p).
Proof.
  induction trs as [|track trs IH]; intros acc; cbn [fold_left List.filter].
  - cbn. rewrite app_nil_r. repeat split; auto.
  - specialize (IH (AudioService.prepare currentTime acc track)).
    cbv zeta in IH. destruct IH as (Hreg & Hclock & Hids & Hfrom).
    destruct (prepare_step currentTime acc track)
      as [[Hs E]|[Hs (s1 & p0 & E & Hp0 & Hr1 & Hc1)]];
      rewrite Hs; rewrite E in Hreg, Hclock, Hids, Hfrom |- *.
    + repeat split; auto.
      intros p Hp. destruct (Hfrom p Hp) as [H|(tr & Hin & H)]; auto.
      right. exists tr. split; [right; exact Hin|exact H].
    + cbn [fst snd] in Hreg, Hclock, Hids, Hfrom.
      split; [congruence|]. split; [congruence|]. split.
      * rewrite Hids, List.map_app. cbn [List.map].
        rewrite <- app_assoc. destruct Hp0 as [-> _]. reflexivity.
      * intros p Hp. destruct (Hfrom p Hp) as [H|(tr & Hin & H)].
        -- apply in_app_or in H. destruct H as [H|[H|[]]]; [left; exact H|].
           right. exists track. split; [left; reflexivity|].
           subst p. exact Hp0.
        -- right. exists tr. split; [right; exact Hin|exact H].
Qed.

(** *** The second loop: starting and registering *)

Lemma startSource_fold_spec (when : Q) (ps : list AudioService.Prepared) :
  forall acc : AudioService.Result,
  let r := fold_left (AudioService.startSource when) ps acc in
  snd r = snd acc ++ List.map (Pass.start_of when) ps
  /\ AudioService.activeSources (fst r)
     = Pass.register ps (AudioService.activeSources (fst acc))
  /\ AudioService.contextTime (fst r) = AudioService.contextTime (fst acc).
Proof.
  induction ps as [|p ps IH]; intros acc; cbn [fold_left].
  - cbn. rewrite app_nil_r. auto.
  - specialize (IH (AudioService.startSource when acc p)).
    cbv zeta in IH. destruct IH as (Hcmds & Hreg & Hclock).
    split; [|split].
    + rewrite Hcmds. cbn. rewrite <- app_assoc. reflexivity.
    + rewrite Hreg. reflexivity.
    + rewrite Hclock. reflexivity.
Qed.

Lemma register_dom (ps : list AudioService.Prepared) :
  forall m : gmap string SourceNode,
  dom (Pass.register ps m)
  = dom m ∪ list_to_set (List.map AudioService.trackId ps).
Proof.
  unfold Pass.register.
  induction ps as [|p ps IH]; intros m; cbn [fold_left List.map].
  - rewrite list_to_set_nil, (right_id_L ∅ (∪)). reflexivity.
  - rewrite IH, dom_insert_L, list_to_set_cons.
    rewrite (comm_L (∪) {[AudioService.trackId p]} (dom m)).
    rewrite (assoc_L (∪)). reflexivity.
Qed.

(** Registering leaves the entries of other ids alone. *)
Lemma register_lookup_other (ps : list AudioService.Prepared) (k : string) :
  forall m : gmap string SourceNode,
  ~ In k (List.map AudioService.trackId ps) ->
  Pass.register ps m !! k = m !! k.
Proof.
  unfold Pass.register.
  induction ps as [|p ps IH]; intros m Hk; cbn [fold_left]; [reflexivity|].
  cbn in Hk. rewrite IH by tauto.
  apply lookup_insert_ne. tauto.
Qed.

(** With distinct ids, each prepared source ends up under its id. *)
Lemma register_lookup_in (ps : list AudioService.Prepared) :
  forall (m : gmap string SourceNode) (p : AudioService.Prepared),
  NoDup (List.map AudioService.trackId ps) ->
  In p ps ->
  Pass.register ps m !! AudioService.trackId p
  = Some (AudioService.source p).
Proof.
  induction ps as [|q ps IH]; intros m p Hnd Hin; [destruct Hin|].
  cbn in Hnd. apply NoDup_cons in Hnd. destruct Hnd as [Hq Hnd].
  destruct Hin as [->|Hin].
  - unfold Pass.register. cbn [fold_left].
    fold (Pass.register ps
            (<[AudioService.trackId p := AudioService.source p]> m)).
    rewrite register_lookup_other.
    + apply lookup_insert_eq.
    + intros H. apply Hq. apply list_elem_of_In. exact H.
  - unfold Pass.register. cbn [fold_left].
    apply (IH _ p Hnd Hin).
Qed.

(** *** The filter *)

Lemma filter_all {A : Type} (f : A -> bool) (l : list A) :
  (forall x, In x l -> f x = true) -> List.filter f l = l.
Proof.
  induction l as [|a l IH]; intros H; cbn; [reflexivity|].
  rewrite (H a) by (left; reflexivity).
  rewrite IH; [reflexivity|]. intros x Hx. apply H. right. exact Hx.
Qed.

(** The filter keeps the tracks that are not registered and eligible. *)
Lemma tracksToStart_eligible (tracks : list AudioTrack.t) (currentTime : Q)
    (hasSoloTracks : bool) (s : AudioService.t) :
  AudioService.tracksToStart tracks currentTime hasSoloTracks s
  = List.filter
      (fun track =>
         negb (AudioService.has (AudioTrack.id track) s)
         && Resolver.eligible hasSoloTracks currentTime track)
      tracks.
Proof.
  unfold AudioService.tracksToStart. apply List.filter_ext. intros track.
  unfold Resolver.eligible, Resolver.active_at.
  destruct (AudioService.has (AudioTrack.id track) s); [reflexivity|].
  destruct (bool_decide (is_Some (AudioTrack.audioBuffer track)));
    [|reflexivity].
  destruct (AudioTrack.isMuted track); [reflexivity|].
  destruct hasSoloTracks, (AudioTrack.isSolo track); reflexivity.
Qed.

Lemma tracksToStart_In (tracks : list AudioTrack.t) (currentTime : Q)
    (hasSoloTracks : bool) (s : AudioService.t) (track : AudioTrack.t) :
  In track (AudioService.tracksToStart tracks currentTime hasSoloTracks s)
  <-> In track tracks
      /\ (AudioTrack.id track ∉ Pass.registered s)
      /\ Resolver.eligible hasSoloTracks currentTime track = true.
Proof.
  rewrite tracksToStart_eligible, filter_In, andb_true_iff, negb_true_iff,
    has_false. reflexivity.
Qed.

Lemma eligible_startable (hasSoloTracks : bool) (currentTime : Q)
    (track : AudioTrack.t) :
  Resolver.eligible hasSoloTracks currentTime track = true ->
  Pass.startable currentTime track = true.
Proof.
  unfold Resolver.eligible, Pass.startable.
  rewrite !andb_true_iff. intros [[[Hb _] _] Ha].
  split; [exact Hb|]. apply ltb_true. apply active_offset_in_range. exact Ha.
Qed.

(** *** One pass, in closed form

    A pass of [playTracks] prepares one source per track that the filter
    kept, starts them all at the context time plus 0.05 and registers
    them in order; the context clock is not touched. *)
Lemma playTracks_spec (tracks : list AudioTrack.t) (currentTime : Q)
    (hasSoloTracks : bool) (s : AudioService.t) :
  let r := AudioService.playTracks tracks currentTime hasSoloTracks s in
  let toStart :=
    AudioService.tracksToStart tracks currentTime hasSoloTracks s in
  exists ps : list AudioService.Prepared,
    snd r = List.map (Pass.start_of (AudioService.contextTime s + (5 # 100))) ps
    /\ AudioService.activeSources (fst r)
       = Pass.register ps (AudioService.activeSources s)
    /\ List.map AudioService.trackId ps = List.map AudioTrack.id toStart
    /\ (forall p, In p ps ->
          exists track, In track toStart
                        /\ Pass.from_track currentTime track p)
    /\ AudioService.contextTime (fst r) = AudioService.contextTime s.
Proof.
  cbv zeta. unfold AudioService.playTracks.
  set (toStart := AudioService.tracksToStart tracks currentTime hasSoloTracks s).
  destruct toStart as [|t0 ts] eqn:Ets.
  - exists []. cbn. repeat split; auto. intros p [].
  - cbn [length Nat.eqb]. rewrite <- Ets.
    pose proof (prepare_fold_spec currentTime toStart (s, [])) as Hprep.
    cbv zeta in Hprep.
    destruct (fold_left (AudioService.prepare currentTime) toStart (s, []))
      as [s1 ps] eqn:Efold.
    cbn [fst snd List.map app] in Hprep.
    destruct Hprep as (Hreg & Hclock & Hids & Hfrom).
    pose proof (startSource_fold_spec
                  (AudioService.contextTime s + (5 # 100)) ps (s1, []))
      as Hstart.
    cbv zeta in Hstart. cbn [fst snd app] in Hstart.
    destruct Hstart as (Hcmds & Hreg' & Hclock').
    exists ps. split; [exact Hcmds|]. split; [congruence|]. split.
    + rewrite Hids. f_equal. apply filter_all. intros track Hin.
      subst toStart. apply tracksToStart_In in Hin.
      apply (eligible_startable hasSoloTracks). tauto.
    + split; [|congruence].
      intros p Hp. destruct (Hfrom p Hp) as [[]|H]. exact H.
Qed.

Lemma started_start_of (when : Q) (ps : list AudioService.Prepared) :
  AudioService.started (List.map (Pass.start_of when) ps)
  = List.map AudioService.trackId ps.
Proof.
  induction ps as [|p ps IH]; cbn; [reflexivity|]. f_equal. exact IH.
Qed.

(** The ids started by a pass are those of the tracks the filter kept. *)
Lemma playTracks_started (tracks : list AudioTrack.t) (currentTime : Q)
    (hasSoloTracks : bool) (s : AudioService.t) :
  AudioService.started
    (snd (AudioService.playTracks tracks currentTime hasSoloTracks s))
  = List.map AudioTrack.id
      (AudioService.tracksToStart tracks currentTime hasSoloTracks s).
Proof.
  destruct (playTracks_spec tracks currentTime hasSoloTracks s)
    as (ps & Hcmds & _ & Hids & _).
  rewrite Hcmds, started_start_of. exact Hids.
Qed.

(** The registry after a pass: what was registered, and what was started. *)
Lemma playTracks_registered (tracks : list AudioTrack.t) (currentTime : Q)
    (hasSoloTracks : bool) (s : AudioService.t) :
  let r := AudioService.playTracks tracks currentTime hasSoloTracks s in
  Pass.registered (fst r)
  = Pass.registered s ∪ list_to_set (AudioService.started (snd r)).
Proof.
  cbv zeta.
  destruct (playTracks_spec tracks currentTime hasSoloTracks s)
    as (ps & Hcmds & Hreg & Hids & _).
  unfold Pass.registered.
  rewrite Hreg, Hcmds, started_start_of. apply register_dom.
Qed.

Lemma playTracks_nothing_to_start (tracks : list AudioTrack.t)
    (currentTime : Q) (hasSoloTracks : bool) (s : AudioService.t) :
  AudioService.tracksToStart tracks currentTime hasSoloTracks s = [] ->
  AudioService.playTracks tracks currentTime hasSoloTracks s = (s, []).
Proof.
  intros H. unfold AudioService.playTracks. rewrite H. reflexivity.
Qed.

(** A pass replaces no entry: the registry it finds is part of the one
    it leaves. *)
Lemma playTracks_keeps_entries (tracks : list AudioTrack.t) (currentTime : Q)
    (hasSoloTracks : bool) (s : AudioService.t) :
  AudioService.activeSources s
  ⊆ AudioService.activeSources
      (fst (AudioService.playTracks tracks currentTime hasSoloTracks s)).
Proof.
  destruct (playTracks_spec tracks currentTime hasSoloTracks s)
    as (ps & _ & Hreg & Hids & _).
  rewrite Hreg. apply map_subseteq_spec. intros k v Hk.
  rewrite register_lookup_other; [exact Hk|].
  rewrite Hids. intros Hin. apply in_map_iff in Hin.
  destruct Hin as (track & <- & Hin). apply tracksToStart_In in Hin.
  destruct Hin as (_ & Hnot & _). apply Hnot.
  unfold Pass.registered. apply elem_of_dom. eauto.
Qed.

(** *** The ids a pass starts, by the program's own two tests *)

Lemma filter_filter_andb {A : Type} (f g : A -> bool) (l : list A) :
  List.filter g (List.filter f l) = List.filter (fun x => f x && g x) l.
Proof.
  induction l as [|a l IH]; cbn; [reflexivity|].
  destruct (f a); cbn; [destruct (g a); cbn; rewrite IH|rewrite IH];
    reflexivity.
Qed.

Lemma pass_started (tracks : list AudioTrack.t) (currentTime : Q)
    (hasSoloTracks : bool) (s : AudioService.t) :
  AudioService.started
    (snd (AudioService.playTracks tracks currentTime hasSoloTracks s))
  = List.map AudioTrack.id
      (List.filter (Pass.startable currentTime)
         (AudioService.tracksToStart tracks currentTime hasSoloTracks s)).
Proof.
  unfold AudioService.playTracks.
  set (toStart := AudioService.tracksToStart tracks currentTime hasSoloTracks s).
  destruct toStart as [|t0 ts] eqn:Ets; [reflexivity|].
  cbn [length Nat.eqb]. rewrite <- Ets.
  pose proof (prepare_fold_spec currentTime toStart (s, [])) as Hprep.
  cbv zeta in Hprep.
  destruct (fold_left (AudioService.prepare currentTime) toStart (s, []))
    as [s1 ps] eqn:Efold.
  cbn [fst snd List.map app] in Hprep. destruct Hprep as (_ & _ & Hids & _).
  pose proof (startSource_fold_spec
                (AudioService.contextTime s + (5 # 100)) ps (s1, []))
    as (Hcmds & _).
  cbn [snd app] in Hcmds. rewrite Hcmds, started_start_of. exact Hids.
Qed.

Lemma pass_starts (tracks : list AudioTrack.t) (currentTime : Q)
    (hasSoloTracks : bool) (s : AudioService.t) :
  AudioService.started
    (snd (AudioService.playTracks tracks currentTime hasSoloTracks s))
  = List.map AudioTrack.id
      (List.filter
         (fun track =>
            negb (AudioService.has (AudioTrack.id track) s)
            && Wanted.starts hasSoloTracks currentTime track)
         tracks).
Proof.
  rewrite pass_started, tracksToStart_eligible, filter_filter_andb.
  f_equal. apply List.filter_ext. intros track.
  unfold Wanted.starts, Pass.startable, Resolver.eligible.
  destruct (AudioService.has (AudioTrack.id track) s),
    (bool_decide (is_Some (AudioTrack.audioBuffer track))),
    (AudioTrack.isMuted track), (negb hasSoloTracks || AudioTrack.isSolo track),
    (Resolver.active_at currentTime track); reflexivity.
Qed.

Lemma pass_no_stop (tracks : list AudioTrack.t) (currentTime : Q)
    (hasSoloTracks : bool) (s : AudioService.t) :
  List.existsb AudioService.is_stop
    (snd (AudioService.playTracks tracks currentTime hasSoloTracks s))
  = false.
Proof.
  destruct (playTracks_spec tracks currentTime hasSoloTracks s)
    as (ps & Hcmds & _).
  rewrite Hcmds. clear Hcmds.
  induction ps as [|p ps IH]; [reflexivity|exact IH].
Qed.

Lemma NoDup_map_filter {A B : Type} (f : A -> B) (g : A -> bool)
    (l : list A) :
  NoDup (List.map f l) -> NoDup (List.map f (List.filter g l)).
Proof.
  induction l as [|a l IH]; cbn; intros H; [exact H|].
  apply NoDup_cons in H. destruct H as [Ha H].
  destruct (g a); cbn; [|exact (IH H)].
  apply NoDup_cons. split; [|exact (IH H)].
  intros Hin. apply Ha.
  apply list_elem_of_In in Hin. apply list_elem_of_In.
  apply in_map_iff in Hin. destruct Hin as (x & Hx & Hin).
  apply in_map_iff. exists x. split; [exact Hx|].
  apply filter_In in Hin. tauto.
Qed.

Lemma NoDup_map_In_inj {A B : Type} (f : A -> B) (l : list A) (x y : A) :
  NoDup (List.map f l) -> In x l -> In y l -> f x = f y -> x = y.
Proof.
  induction l as [|a l IH]; cbn; intros Hnd Hx Hy Hf; [destruct Hx|].
  apply NoDup_cons in Hnd. destruct Hnd as [Ha Hnd].
  assert (Hmem : forall z, In z l -> f a <> f z).
  { intros z Hz E. apply Ha. apply list_elem_of_In. apply in_map_iff.
    exists z. split; [symmetry; exact E|exact Hz]. }
  destruct Hx as [->|Hx], Hy as [->|Hy].
  - reflexivity.
  - exfalso. exact (Hmem y Hy Hf).
  - exfalso. exact (Hmem x Hx (eq_sym Hf)).
  - exact (IH Hnd Hx Hy Hf).
Qed.
End PassFacts.

(** ** The scheduler: what a reconciliation pass does *)

Section Scheduler.
Local Open Scope Q_scope.


(** C7.  A second reconciliation pass over the same tracks, position and
    solo flag, run on the state the first pass left, issues no command
    and returns that state unchanged, registry included. *)
Theorem reconciliation_is_idempotent (tracks : list AudioTrack.t)
    (currentTime : Q) (hasSoloTracks : bool) (s : AudioService.t) :
  let first := AudioService.updatePlayback tracks currentTime hasSoloTracks s in
  AudioService.updatePlayback tracks currentTime hasSoloTracks (fst first)
  = (fst first, []).
Proof.
  cbv zeta. unfold AudioService.updatePlayback.
  apply playTracks_nothing_to_start.
  destruct (AudioService.tracksToStart tracks currentTime hasSoloTracks
              (fst (AudioService.playTracks tracks currentTime hasSoloTracks s)))
    as [|track rest] eqn:E; [reflexivity|exfalso].
  assert (Hin : In track (track :: rest)) by (left; reflexivity).
  rewrite <- E in Hin. apply tracksToStart_In in Hin.
  destruct Hin as (Htr & Hnot & Hel). apply Hnot.
  rewrite playTracks_registered, playTracks_started.
  destruct (decide (AudioTrack.id track ∈ Pass.registered s)) as [Hreg|Hreg].
  - apply elem_of_union_l. exact Hreg.
  - apply elem_of_union_r. apply elem_of_list_to_set.
    apply list_elem_of_In. apply in_map.
    apply tracksToStart_In. auto.
Qed.

(** C8.  Every source a pass starts belongs to a track of the list, and
    its offset into the buffer is [max(0, position - startTime)] and is
    short of the track's duration.  A track whose offset reaches its
    duration is skipped: the loop body leaves the state and the list of
    prepared sources as they are, and, ids being distinct, the pass issues
    no start for its id.  At position 10 the track at offset 4 is started
    at buffer offset 6 and the track at offset 12 is not started. *)
Theorem buffer_offset_of_started_sources (tracks : list AudioTrack.t)
    (currentTime : Q) (hasSoloTracks : bool) (s : AudioService.t) :
  let cmds :=
    snd (AudioService.updatePlayback tracks currentTime hasSoloTracks s) in
  Forall
    (fun c => exists track source when,
       In track tracks
       /\ c = Start (AudioTrack.id track) source when
                    (Qmax 0 (currentTime - AudioTrack.startTime track))
       /\ Qmax 0 (currentTime - AudioTrack.startTime track)
          < AudioTrack.duration track)
    cmds
  /\ (forall track acc,
        AudioTrack.duration track
          <= Qmax 0 (currentTime - AudioTrack.startTime track) ->
        AudioService.prepare currentTime acc track = acc)
  /\ (NoDup (List.map AudioTrack.id tracks) ->
      forall track,
        In track tracks ->
        AudioTrack.duration track
          <= Qmax 0 (currentTime - AudioTrack.startTime track) ->
        ~ In (AudioTrack.id track) (AudioService.started cmds))
  /\ List.map
       (fun c => match c with
                 | Start trackId _ _ offset => (trackId, offset)
                 | Stop trackId _ => (trackId, 0)
                 end)
       (snd (AudioService.updatePlayback [Sample.at4; Sample.at12] 10 false
               Sample.service))
     = [("P"%string, 6)].
Proof.
  cbv zeta. unfold AudioService.updatePlayback.
  split; [|split; [|split; [|reflexivity]]].
  - destruct (playTracks_spec tracks currentTime hasSoloTracks s)
      as (ps & Hcmds & _ & _ & Hfrom & _).
    rewrite Hcmds. apply List.Forall_forall. intros c Hc.
    apply in_map_iff in Hc. destruct Hc as (p & <- & Hp).
    destruct (Hfrom p Hp) as (track & Hin & Hid & Hoff & Hlt & _).
    apply tracksToStart_In in Hin. destruct Hin as (Hin & _).
    exists track, (AudioService.source p), (AudioService.contextTime s + (5 # 100)).
    split; [exact Hin|]. unfold Pass.start_of.
    rewrite Hid, <- Hoff. split; [reflexivity|exact Hlt].
  - intros track acc Hle.
    destruct (prepare_step currentTime acc track)
      as [[_ E]|[_ (s1 & p & _ & Hp & _)]]; [exact E|exfalso].
    destruct Hp as (_ & Hoff & Hlt & _). rewrite Hoff in Hlt. lra.
  - intros Hnd track Hin Hle Hst.
    rewrite playTracks_started in Hst. apply in_map_iff in Hst.
    destruct Hst as (other & Hid & Hother).
    apply tracksToStart_In in Hother. destruct Hother as (Hother & _ & Hel).
    assert (other = track) as ->
      by exact (NoDup_map_In_inj AudioTrack.id tracks other track
                  Hnd Hother Hin Hid).
    apply eligible_startable in Hel. unfold Pass.startable in Hel.
    apply andb_true_iff in Hel. destruct Hel as [_ Hlt].
    apply ltb_true in Hlt. lra.
Qed.

Lemma buffer_offset_of_started_sources_witness :
  let late := Sample.placed "E" 0 3 in
  NoDup (List.map AudioTrack.id [late; Sample.plainB])
  /\ AudioTrack.duration late <= Qmax 0 (5 - AudioTrack.startTime late)
  /\ AudioService.prepare 5 (Sample.service, []) late = (Sample.service, [])
  /\ ~ In (AudioTrack.id late)
       (AudioService.started
          (snd (AudioService.updatePlayback [late; Sample.plainB] 5 false
                  Sample.service))).
Proof.
  cbv zeta.
  assert (Hnd : NoDup (List.map AudioTrack.id
                         [Sample.placed "E" 0 3; Sample.plainB])).
  { cbn. repeat constructor; rewrite ?list_elem_of_In; cbn;
      intuition discriminate. }
  assert (Hle : AudioTrack.duration (Sample.placed "E" 0 3)
                <= Qmax 0 (5 - AudioTrack.startTime (Sample.placed "E" 0 3)))
    by (cbn; discriminate).
  pose proof (buffer_offset_of_started_sources
                [Sample.placed "E" 0 3; Sample.plainB] 5 false Sample.service)
    as (_ & Hskip & Hpass & _).
  split; [exact Hnd|]. split; [exact Hle|]. split.
  - apply Hskip. exact Hle.
  - refine (Hpass Hnd (Sample.placed "E" 0 3) _ Hle). left. reflexivity.
Defined.

(** C4, as stated, fails for [playTrack], which starts a source and
    overwrites the registry entry without asking whether the id is
    registered: called twice for track B with no stop in between, it
    issues two starts for B, and the entry then holds the second source. *)
Lemma playTrack_starts_a_registered_track :
  let first := AudioService.playTrack Sample.plainB 1 None Sample.service in
  let second := AudioService.playTrack Sample.plainB 1 None (fst (fst first)) in
  AudioService.has "B" (fst (fst first)) = true
  /\ AudioService.started (snd first) = ["B"%string]
  /\ AudioService.started (snd second) = ["B"%string]
  /\ List.existsb AudioService.is_stop (snd first ++ snd second) = false
  /\ snd (fst first) <> snd (fst second)
  /\ AudioService.activeSources (fst (fst second)) !! "B"%string
     = snd (fst second).
Proof.
  cbv zeta. repeat split; try reflexivity. cbn. discriminate.
Qed.

(** C4, amended.  The registry is a map, so an id has at most one entry.
    A pass of [playTracks] issues no start for an id that is registered
    when the pass begins, and it keeps every entry it finds.  When the
    ids of the track list are distinct, the pass starts no id twice, and
    the source of each start it issues is the one registered under the
    id when the pass ends. *)
Theorem playTracks_never_restarts (tracks : list AudioTrack.t)
    (currentTime : Q) (hasSoloTracks : bool) (s : AudioService.t) :
  let r := AudioService.playTracks tracks currentTime hasSoloTracks s in
  Forall (fun trackId => trackId ∉ Pass.registered s)
         (AudioService.started (snd r))
  /\ AudioService.activeSources s ⊆ AudioService.activeSources (fst r)
  /\ (NoDup (List.map AudioTrack.id tracks) ->
      NoDup (AudioService.started (snd r))
      /\ Forall
           (fun c => match c with
                     | Start trackId source _ _ =>
                         AudioService.activeSources (fst r) !! trackId
                         = Some source
                     | Stop _ _ => False
                     end)
           (snd r)).
Proof.
  cbv zeta. split; [|split].
  - rewrite playTracks_started. apply List.Forall_forall. intros k Hk.
    apply in_map_iff in Hk. destruct Hk as (track & <- & Hin).
    apply tracksToStart_In in Hin. tauto.
  - apply playTracks_keeps_entries.
  - intros Hnd.
    assert (Hnd' : NoDup (AudioService.started
              (snd (AudioService.playTracks tracks currentTime hasSoloTracks s)))).
    { rewrite playTracks_started. unfold AudioService.tracksToStart.
      apply NoDup_map_filter. exact Hnd. }
    split; [exact Hnd'|].
    destruct (playTracks_spec tracks currentTime hasSoloTracks s)
      as (ps & Hcmds & Hreg & _).
    rewrite Hcmds, started_start_of in Hnd'.
    rewrite Hcmds, Hreg. apply List.Forall_forall. intros c Hc.
    apply in_map_iff in Hc. destruct Hc as (p & <- & Hp).
    unfold Pass.start_of. apply register_lookup_in; assumption.
Qed.

(** Without distinct ids the last part fails: two tracks that share an id
    both pass the filter, which reads the registry before any source is
    registered, and both are started. *)
Lemma playTracks_shared_id_starts_twice :
  AudioService.started
    (snd (AudioService.playTracks [Sample.plainB; Sample.plainB] 1 false
            Sample.service))
  = ["B"%string; "B"%string].
Proof. reflexivity. Qed.

Lemma playTracks_never_restarts_witness :
  NoDup (List.map AudioTrack.id [Sample.at4; Sample.plainB])
  /\ NoDup (AudioService.started
              (snd (AudioService.playTracks [Sample.at4; Sample.plainB] 4
                      false Sample.service))).
Proof.
  assert (Hnd : NoDup (List.map AudioTrack.id [Sample.at4; Sample.plainB])).
  { cbn. repeat constructor; rewrite ?list_elem_of_In; cbn;
      intuition discriminate. }
  split; [exact Hnd|].
  apply (playTracks_never_restarts [Sample.at4; Sample.plainB] 4 false
           Sample.service).
  exact Hnd.
Defined.

(** C1, as stated, fails: the filter of [playTracks] drops a muted track
    before it looks at the solo flags.  With A soloed and muted and B
    neither, both active at position 1, the specification's resolver
    wants A, and the pass starts nothing. *)
Lemma muted_soloed_track_is_not_started :
  let tl := Timeline.addTrack Sample.plainB
              (Timeline.addTrack Sample.soloMutedA Timeline.new) in
  Timeline.hasAnySoloTracks tl = true
  /\ AudioTrack.isSolo Sample.soloMutedA = true
  /\ AudioTrack.isMuted Sample.soloMutedA = true
  /\ Timeline.getActiveTracks 1 tl = [Sample.soloMutedA; Sample.plainB]
  /\ Resolver.wanted_spec (Timeline.tracks tl) 1 = ["A"%string]
  /\ AudioService.playTracks (Timeline.tracks tl) 1
       (Timeline.hasAnySoloTracks tl) Sample.service
     = (Sample.service, []).
Proof.
  cbv zeta. repeat split; reflexivity.
Qed.

(** C1, amended.  When at least one track of the timeline is soloed, a
    pass starts exactly the tracks that are soloed, not muted, decoded, not
    yet registered, active at the position and whose buffer offset
    [max(0, position - startTime)] is short of their duration, in the order
    of the track list; a muted track is not started even when it is soloed,
    and a track that is not soloed is not started whatever its mute flag. *)
Theorem solo_pass_starts_unmuted_soloed_tracks (tl : Timeline.t)
    (position : Q) (s : AudioService.t) :
  Timeline.hasAnySoloTracks tl = true ->
  let cmds :=
    snd (AudioService.playTracks (Timeline.tracks tl) position
           (Timeline.hasAnySoloTracks tl) s) in
  AudioService.started cmds
  = List.map AudioTrack.id
      (List.filter
         (fun track =>
            AudioTrack.isSolo track
            && negb (AudioTrack.isMuted track)
            && bool_decide (is_Some (AudioTrack.audioBuffer track))
            && negb (AudioService.has (AudioTrack.id track) s)
            && Resolver.active_at position track
            && Num.ltb (Qmax 0 (position - AudioTrack.startTime track))
                       (AudioTrack.duration track))
         (Timeline.tracks tl))
  /\ Forall
       (fun c => exists track source when offset,
          c = Start (AudioTrack.id track) source when offset
          /\ In track (Timeline.tracks tl)
          /\ AudioTrack.isSolo track = true
          /\ AudioTrack.isMuted track = false)
       cmds.
Proof.
  intros Hsolo. cbv zeta. rewrite Hsolo. split.
  - rewrite pass_starts. f_equal.
    apply List.filter_ext. intros track.
    unfold Wanted.starts, Resolver.eligible.
    destruct (AudioTrack.isSolo track), (AudioTrack.isMuted track),
      (bool_decide (is_Some (AudioTrack.audioBuffer track))),
      (AudioService.has (AudioTrack.id track) s),
      (Resolver.active_at position track); reflexivity.
  - destruct (playTracks_spec (Timeline.tracks tl) position true s)
      as (ps & Hcmds & _ & _ & Hfrom & _).
    rewrite Hcmds. apply List.Forall_forall. intros c Hc.
    apply in_map_iff in Hc. destruct Hc as (p & <- & Hp).
    destruct (Hfrom p Hp) as (track & Hin & Hid & _).
    apply tracksToStart_In in Hin. destruct Hin as (Hin & _ & Hel).
    exists track, (AudioService.source p),
      (AudioService.contextTime s + (5 # 100)), (AudioService.bufferOffset p).
    unfold Pass.start_of. rewrite Hid.
    unfold Resolver.eligible in Hel. cbn [negb orb] in Hel.
    rewrite !andb_true_iff, negb_true_iff in Hel.
    repeat split; tauto.
Qed.

Lemma solo_pass_starts_unmuted_soloed_tracks_witness :
  let tl := Timeline.with_tracks
              [AudioTrack.toggleSolo Sample.at4; Sample.soloMutedA;
               Sample.plainB]
              Timeline.new in
  Timeline.hasAnySoloTracks tl = true
  /\ AudioService.started
       (snd (AudioService.playTracks (Timeline.tracks tl) 4
               (Timeline.hasAnySoloTracks tl) Sample.service))
     = ["P"%string].
Proof.
  cbv zeta. split; [reflexivity|].
  exact (proj1 (solo_pass_starts_unmuted_soloed_tracks
                  (Timeline.with_tracks
                     [AudioTrack.toggleSolo Sample.at4; Sample.soloMutedA;
                      Sample.plainB]
                     Timeline.new)
                  4 Sample.service eq_refl)).
Defined.

(** C2, as stated, fails: [updatePlayback] only calls [playTracks], which
    never stops a source.  Track T, over [2, 5), is started at position 3.
    A pass at position 5, where T is past its end, and a pass at position 3
    after T has been muted, both find T unwanted, yet each issues no
    command and leaves T registered. *)
Lemma updatePlayback_stops_nothing :
  let s1 := fst (AudioService.updatePlayback [Sample.boundary] 3 false
                   Sample.service) in
  let ended := AudioService.updatePlayback [Sample.boundary] 5 false s1 in
  let muted := AudioService.updatePlayback
                 [AudioTrack.toggleMute Sample.boundary] 3 false s1 in
  AudioService.has "T" s1 = true
  /\ (Resolver.wanted_spec [Sample.boundary] 5 = []
      /\ snd ended = []
      /\ AudioService.has "T" (fst ended) = true)
  /\ (Resolver.wanted_spec [AudioTrack.toggleMute Sample.boundary] 3 = []
      /\ snd muted = []
      /\ AudioService.has "T" (fst muted) = true).
Proof.
  cbv zeta. repeat split; reflexivity.
Qed.

(** C2, amended.  A reconciliation pass issues no stop and removes or
    replaces no entry that is registered when it begins; it only adds.
    After the pass the registered ids are those registered before together
    with the ids the pass started, and the tracks it started are exactly
    those of the list that are not yet registered, decoded, unmuted, soloed
    when the solo flag is set, active at the position and whose buffer
    offset [max(0, position - startTime)] is short of their duration. *)
Theorem updatePlayback_only_adds (tracks : list AudioTrack.t)
    (currentTime : Q) (hasSoloTracks : bool) (s : AudioService.t) :
  let r := AudioService.updatePlayback tracks currentTime hasSoloTracks s in
  List.existsb AudioService.is_stop (snd r) = false
  /\ AudioService.activeSources s ⊆ AudioService.activeSources (fst r)
  /\ Pass.registered (fst r)
     = Pass.registered s ∪ list_to_set (AudioService.started (snd r))
  /\ AudioService.started (snd r)
     = List.map AudioTrack.id
         (List.filter
            (fun track =>
               negb (AudioService.has (AudioTrack.id track) s)
               && (bool_decide (is_Some (AudioTrack.audioBuffer track))
                   && negb (AudioTrack.isMuted track)
                   && (negb hasSoloTracks || AudioTrack.isSolo track)
                   && Resolver.active_at currentTime track)
               && Num.ltb (Qmax 0 (currentTime - AudioTrack.startTime track))
                          (AudioTrack.duration track))
            tracks).
Proof.
  cbv zeta. unfold AudioService.updatePlayback.
  split; [apply pass_no_stop|]. split; [apply playTracks_keeps_entries|].
  split; [apply playTracks_registered|].
  rewrite pass_starts. f_equal. apply List.filter_ext. intros track.
  unfold Wanted.starts, Resolver.eligible. rewrite andb_assoc. reflexivity.
Qed.
End Scheduler.

(** ** More on the track model *)

Section TrackModel.
Local Open Scope Q_scope.

Lemma string_length_app (a b : string) :
  String.length (a ++ b)%string = (String.length a + String.length b)%nat.
Proof.
  induction a as [|c a IH]; [reflexivity|].
  change (S (String.length (a ++ b)%string)
          = S (String.length a + String.length b)).
  f_equal. exact IH.
Qed.

(** X2.  A clone carries the id of its original with the suffix
    [_clone], so its id differs from the original's, while two clones of one
    track share their id.  The clone copies the buffer, placement, volume,
    mute and solo flags and colour, and takes its name from the file. *)
Theorem clone_id_and_mix_state (c1 c2 : string) (tr : AudioTrack.t) :
  let cl := AudioTrack.clone c1 tr in
  AudioTrack.id cl = (AudioTrack.id tr ++ "_clone")%string
  /\ AudioTrack.id cl <> AudioTrack.id tr
  /\ AudioTrack.id (AudioTrack.clone c2 tr) = AudioTrack.id cl
  /\ cl = AudioTrack.mk (AudioTrack.id tr ++ "_clone")%string
            (file_name (AudioTrack.file tr))
            (AudioTrack.audioBuffer tr) (AudioTrack.file tr)
            (AudioTrack.startTime tr) (AudioTrack.duration tr)
            (AudioTrack.volume tr) (AudioTrack.isMuted tr)
            (AudioTrack.isSolo tr) (AudioTrack.color tr).
Proof.
  assert (Hne : forall s : string, String.eqb (s ++ "_clone") "" = false).
  { intros s. apply String.eqb_neq. intros E.
    apply (f_equal String.length) in E. rewrite string_length_app in E.
    cbn in E. lia. }
  cbv zeta. unfold AudioTrack.clone, AudioTrack.new. cbn. rewrite !Hne.
  repeat split; try reflexivity.
  intros E. apply (f_equal String.length) in E.
  rewrite string_length_app in E. cbn in E. lia.
Qed.
End TrackModel.

(** ** More on the timeline model *)

Section TimelineModel.
Local Open Scope Q_scope.

Lemma updateDuration_tracks (tl : Timeline.t) :
  Timeline.tracks (Timeline.updateDuration tl) = Timeline.tracks tl.
Proof.
  unfold Timeline.updateDuration. destruct (List.map _ _); reflexivity.
Qed.

Lemma updateDuration_nonempty (tl : Timeline.t) :
  Timeline.tracks tl <> [] ->
  60 <= Timeline.duration (Timeline.updateDuration tl).
Proof.
  intros Hne. unfold Timeline.updateDuration.
  destruct (Timeline.tracks tl) as [|t0 ts]; [congruence|].
  cbn. apply Q.le_max_r.
Qed.

(** In-place updates through [getTrack] when the update keeps the id. *)
Lemma find_update_first_same (k : string)
    (f : AudioTrack.t -> AudioTrack.t) (l : list AudioTrack.t)
    (track : AudioTrack.t) :
  (forall x, AudioTrack.id (f x) = AudioTrack.id x) ->
  List.find (fun x => String.eqb (AudioTrack.id x) k) l = Some track ->
  List.find (fun x => String.eqb (AudioTrack.id x) k)
            (Timeline.update_first k f l)
  = Some (f track).
Proof.
  intros Hid. induction l as [|a l IH]; cbn; [discriminate|].
  destruct (String.eqb (AudioTrack.id a) k) eqn:E; cbn.
  - intros [= ->]. rewrite Hid, E. reflexivity.
  - rewrite E. exact IH.
Qed.

Lemma find_update_first_other (k k' : string)
    (f : AudioTrack.t -> AudioTrack.t) (l : list AudioTrack.t) :
  (forall x, AudioTrack.id (f x) = AudioTrack.id x) ->
  k' <> k ->
  List.find (fun x => String.eqb (AudioTrack.id x) k')
            (Timeline.update_first k f l)
  = List.find (fun x => String.eqb (AudioTrack.id x) k') l.
Proof.
  intros Hid Hne. induction l as [|a l IH]; cbn; [reflexivity|].
  destruct (String.eqb (AudioTrack.id a) k) eqn:E; cbn.
  - rewrite Hid. apply String.eqb_eq in E. rewrite E.
    rewrite (proj2 (String.eqb_neq k k')) by congruence. reflexivity.
  - rewrite IH. reflexivity.
Qed.

Lemma update_first_length (k : string) (f : AudioTrack.t -> AudioTrack.t)
    (l : list AudioTrack.t) :
  length (Timeline.update_first k f l) = length l.
Proof.
  induction l as [|a l IH]; cbn; [reflexivity|].
  destruct (String.eqb (AudioTrack.id a) k); cbn; congruence.
Qed.

(** X4.  [removeTrack] removes every track with the id and keeps the others
    in order: afterwards [getTrack] finds none with that id, and a track is
    in the list exactly when it was there under another id.  Removing an id
    that is not there leaves the track list as it was. *)
Theorem removeTrack_removes_every_match (trackId : string) (tl : Timeline.t) :
  let tl' := Timeline.removeTrack trackId tl in
  Timeline.getTrack trackId tl' = None
  /\ (forall track,
        In track (Timeline.tracks tl') <->
        In track (Timeline.tracks tl) /\ AudioTrack.id track <> trackId)
  /\ (Timeline.getTrack trackId tl = None ->
      Timeline.tracks tl' = Timeline.tracks tl).
Proof.
  cbv zeta. unfold Timeline.removeTrack, Timeline.getTrack.
  rewrite updateDuration_tracks. cbn [Timeline.tracks Timeline.with_tracks].
  split; [|split].
  - induction (Timeline.tracks tl) as [|a l IH]; cbn; [reflexivity|].
    destruct (String.eqb (AudioTrack.id a) trackId) eqn:E; cbn; [exact IH|].
    rewrite E. exact IH.
  - intros track. rewrite filter_In, negb_true_iff, String.eqb_neq.
    reflexivity.
  - intros Hnone. apply filter_all. intros x Hx.
    rewrite (find_none _ _ Hnone x Hx). reflexivity.
Qed.

Lemma removeTrack_removes_every_match_witness :
  Timeline.getTrack "R" (Timeline.addTrack Sample.boundary Timeline.new) = None
  /\ Timeline.tracks
       (Timeline.removeTrack "R" (Timeline.addTrack Sample.boundary Timeline.new))
     = Timeline.tracks (Timeline.addTrack Sample.boundary Timeline.new).
Proof.
  split; [reflexivity|].
  apply (removeTrack_removes_every_match "R"
           (Timeline.addTrack Sample.boundary Timeline.new)).
  reflexivity.
Defined.

(** X5.  [addTrack] appends.  When no track has the new track's id,
    [getTrack] then finds the new track, and removing the id again gives
    back the old track list; when a track with that id is already there,
    [getTrack] keeps finding the old one. *)
Theorem addTrack_then_getTrack (track : AudioTrack.t) (tl : Timeline.t) :
  Timeline.tracks (Timeline.addTrack track tl) = Timeline.tracks tl ++ [track]
  /\ (Timeline.getTrack (AudioTrack.id track) tl = None ->
      Timeline.getTrack (AudioTrack.id track) (Timeline.addTrack track tl)
      = Some track
      /\ Timeline.tracks
           (Timeline.removeTrack (AudioTrack.id track)
              (Timeline.addTrack track tl))
         = Timeline.tracks tl)
  /\ (forall old,
        Timeline.getTrack (AudioTrack.id track) tl = Some old ->
        Timeline.getTrack (AudioTrack.id track) (Timeline.addTrack track tl)
        = Some old).
Proof.
  assert (Htr : Timeline.tracks (Timeline.addTrack track tl)
                = Timeline.tracks tl ++ [track]).
  { unfold Timeline.addTrack. rewrite updateDuration_tracks. reflexivity. }
  split; [exact Htr|].
  unfold Timeline.getTrack, Timeline.removeTrack.
  rewrite updateDuration_tracks. cbn [Timeline.tracks Timeline.with_tracks].
  rewrite Htr. clear Htr. generalize (Timeline.tracks tl) as l. intros l.
  split.
  - intros Hnone. split.
    + induction l as [|a l IH]; cbn.
      * rewrite String.eqb_refl. reflexivity.
      * cbn in Hnone.
        destruct (String.eqb (AudioTrack.id a) (AudioTrack.id track));
          [discriminate|]. exact (IH Hnone).
    + rewrite List.filter_app. cbn. rewrite String.eqb_refl. cbn.
      rewrite app_nil_r. apply filter_all. intros x Hx.
      rewrite (find_none _ _ Hnone x Hx). reflexivity.
  - intros old Hold.
    induction l as [|a l IH]; cbn in *; [discriminate|].
    destruct (String.eqb (AudioTrack.id a) (AudioTrack.id track));
      [exact Hold|exact (IH Hold)].
Qed.

Lemma addTrack_then_getTrack_witness :
  Timeline.getTrack (AudioTrack.id Sample.at4)
    (Timeline.addTrack Sample.boundary Timeline.new) = None
  /\ Timeline.getTrack (AudioTrack.id Sample.at4)
       (Timeline.addTrack Sample.at4
          (Timeline.addTrack Sample.boundary Timeline.new))
     = Some Sample.at4
  /\ Timeline.getTrack (AudioTrack.id Sample.boundary)
       (Timeline.addTrack (AudioTrack.toggleMute Sample.boundary)
          (Timeline.addTrack Sample.boundary Timeline.new))
     = Some Sample.boundary.
Proof.
  split; [reflexivity|]. split.
  - destruct (addTrack_then_getTrack Sample.at4
                (Timeline.addTrack Sample.boundary Timeline.new))
      as (_ & Hfresh & _).
    apply Hfresh. reflexivity.
  - destruct (addTrack_then_getTrack (AudioTrack.toggleMute Sample.boundary)
                (Timeline.addTrack Sample.boundary Timeline.new))
      as (_ & _ & Hold).
    apply Hold. reflexivity.
Defined.

Lemma updateDuration_again (tl : Timeline.t) :
  Timeline.updateDuration (Timeline.updateDuration tl)
  = Timeline.updateDuration tl.
Proof.
  unfold Timeline.updateDuration.
  destruct (List.map AudioTrack.getEndTime (Timeline.tracks tl)) eqn:E;
    cbn [Timeline.tracks]; rewrite E; reflexivity.
Qed.

(** X6.  The two solo queries agree: [hasAnySoloTracks] holds exactly when
    [getSoloTracks] is not empty, and [getSoloTracks] lists exactly the
    tracks of the timeline whose solo flag is set. *)
Theorem solo_queries_agree (tl : Timeline.t) :
  (Timeline.hasAnySoloTracks tl = true <-> Timeline.getSoloTracks tl <> [])
  /\ (forall track,
        In track (Timeline.getSoloTracks tl) <->
        In track (Timeline.tracks tl) /\ AudioTrack.isSolo track = true).
Proof.
  unfold Timeline.hasAnySoloTracks, Timeline.getSoloTracks. split.
  - induction (Timeline.tracks tl) as [|a l IH]; cbn.
    + split; [discriminate|congruence].
    + destruct (AudioTrack.isSolo a); cbn; [|exact IH].
      split; [discriminate|reflexivity].
  - intros track. apply filter_In.
Qed.

(** X7.  [updateDuration] changes the duration only, and running it again
    changes nothing: the duration it stores is the one it would compute.
    The timelines that [addTrack], [removeTrack] and [clear] return, and a
    new timeline, are therefore left as they are by [updateDuration]. *)
Theorem updateDuration_is_idempotent (tl : Timeline.t) :
  Timeline.updateDuration (Timeline.updateDuration tl)
  = Timeline.updateDuration tl
  /\ Timeline.updateDuration tl
     = Timeline.mk (Timeline.tracks tl) (Timeline.currentTime tl)
         (Timeline.zoom tl) (Timeline.isPlaying tl) (Timeline.bpm tl)
         (Timeline.duration (Timeline.updateDuration tl))
  /\ (forall track,
        Timeline.updateDuration (Timeline.addTrack track tl)
        = Timeline.addTrack track tl)
  /\ (forall trackId,
        Timeline.updateDuration (Timeline.removeTrack trackId tl)
        = Timeline.removeTrack trackId tl)
  /\ Timeline.updateDuration (Timeline.clear tl) = Timeline.clear tl
  /\ Timeline.updateDuration Timeline.new = Timeline.new.
Proof.
  pose proof updateDuration_again as Hidem.
  split; [apply Hidem|]. split.
  - unfold Timeline.updateDuration.
    destruct (List.map AudioTrack.getEndTime (Timeline.tracks tl));
      reflexivity.
  - repeat split; intros; try apply Hidem; reflexivity.
Qed.

(** X8.  [updateTrackPosition] applies [setStartTime] to the first track
    that has the id: [getTrack] then returns that track with the start time
    set, tracks with other ids are found as before, the number of tracks is
    unchanged and the duration is recomputed, so that running
    [updateDuration] again changes nothing.  For an id that no track has,
    the timeline is returned as it is. *)
Theorem updateTrackPosition_moves_first_match (trackId : string) (time : Q)
    (tl : Timeline.t) :
  let tl' := Timeline.updateTrackPosition trackId time tl in
  match Timeline.getTrack trackId tl with
  | None => tl' = tl
  | Some track =>
      Timeline.getTrack trackId tl'
      = Some (AudioTrack.setStartTime time track)
      /\ (forall other, other <> trackId ->
            Timeline.getTrack other tl' = Timeline.getTrack other tl)
      /\ length (Timeline.tracks tl') = length (Timeline.tracks tl)
      /\ Timeline.updateDuration tl' = tl'
  end.
Proof.
  cbv zeta. unfold Timeline.updateTrackPosition.
  destruct (Timeline.getTrack trackId tl) as [track|] eqn:Eget;
    [|reflexivity].
  unfold Timeline.getTrack in *. rewrite updateDuration_tracks.
  cbn [Timeline.tracks Timeline.with_tracks].
  split; [|split; [|split]].
  - apply find_update_first_same; [reflexivity|exact Eget].
  - intros other Hne. apply find_update_first_other; [reflexivity|exact Hne].
  - apply update_first_length.
  - apply updateDuration_again.
Qed.

Lemma updateTrackPosition_moves_first_match_witness :
  let tl := Timeline.addTrack Sample.at4
              (Timeline.addTrack Sample.boundary Timeline.new) in
  Timeline.getTrack "T" tl = Some Sample.boundary
  /\ "P"%string <> "T"%string
  /\ Timeline.getTrack "P" (Timeline.updateTrackPosition "T" 9 tl)
     = Timeline.getTrack "P" tl.
Proof.
  cbv zeta.
  assert (Hne : "P"%string <> "T"%string) by discriminate.
  split; [reflexivity|]. split; [exact Hne|].
  pose proof (updateTrackPosition_moves_first_match "T" 9
                (Timeline.addTrack Sample.at4
                   (Timeline.addTrack Sample.boundary Timeline.new))) as H.
  cbv zeta in H.
  change (Timeline.getTrack "T"
            (Timeline.addTrack Sample.at4
               (Timeline.addTrack Sample.boundary Timeline.new)))
    with (Some Sample.boundary) in H at 1.
  cbv beta iota in H. destruct H as (_ & Hother & _).
  exact (Hother "P"%string Hne).
Defined.
End TimelineModel.

(** ** More on the audio service *)

Section AudioServiceModel.
Local Open Scope Q_scope.

(** X9.  [stopTrack] on a registered id issues one stop, for the source
    registered under the id, and deletes the entry; on an id that is not
    registered it issues nothing and returns the service as it is.  In both
    cases the registry afterwards is the old one without the id. *)
Theorem stopTrack_stops_the_registered_source (trackId : string)
    (s : AudioService.t) :
  let r := AudioService.stopTrack trackId s in
  match AudioService.activeSources s !! trackId with
  | Some source => snd r = [Stop trackId source]
  | None => r = (s, [])
  end
  /\ AudioService.activeSources (fst r)
     = delete trackId (AudioService.activeSources s)
  /\ (trackId ∉ Pass.registered (fst r))
  /\ AudioService.started (snd r) = [].
Proof.
  cbv zeta. unfold AudioService.stopTrack, Pass.registered.
  destruct (AudioService.activeSources s !! trackId) as [source|] eqn:E; cbn.
  - repeat split; try reflexivity.
    rewrite dom_delete_L. apply not_elem_of_difference. right.
    apply elem_of_singleton. reflexivity.
  - repeat split; try reflexivity.
    + symmetry. apply delete_id. exact E.
    + apply not_elem_of_dom. exact E.
Qed.

(** X10.  [stopAll] empties the registry and issues exactly one stop per
    entry it held, for the source of that entry, and no start. *)
Theorem stopAll_stops_every_registered_source (s : AudioService.t) :
  let r := AudioService.stopAll s in
  AudioService.activeSources (fst r) = ∅
  /\ (forall trackId source,
        In (Stop trackId source) (snd r) <->
        AudioService.activeSources s !! trackId = Some source)
  /\ length (snd r) = size (AudioService.activeSources s)
  /\ AudioService.started (snd r) = [].
Proof.
  cbv zeta. unfold AudioService.stopAll. cbn [fst snd AudioService.activeSources].
  split; [reflexivity|]. split; [|split].
  - intros trackId source. rewrite in_map_iff.
    rewrite <- elem_of_map_to_list, list_elem_of_In. split.
    + intros ([k v] & [= -> ->] & Hin). exact Hin.
    + intros Hin. exists (trackId, source). split; [reflexivity|exact Hin].
  - rewrite length_map. apply length_map_to_list.
  - induction (map_to_list (AudioService.activeSources s)) as [|[k v] l IH];
      [reflexivity|exact IH].
Qed.

Lemma pass_starts_from_empty (tracks : list AudioTrack.t) (currentTime : Q)
    (hasSoloTracks : bool) (a : AudioService.t) :
  AudioService.activeSources a = ∅ ->
  let r := AudioService.playTracks tracks currentTime hasSoloTracks a in
  let wanted :=
    List.map AudioTrack.id
      (List.filter (Wanted.starts hasSoloTracks currentTime) tracks) in
  AudioService.started (snd r) = wanted
  /\ Pass.registered (fst r) = list_to_set wanted.
Proof.
  intros He. cbv zeta.
  assert (Hst : AudioService.started
            (snd (AudioService.playTracks tracks currentTime hasSoloTracks a))
          = List.map AudioTrack.id
              (List.filter (Wanted.starts hasSoloTracks currentTime) tracks)).
  { rewrite pass_starts. f_equal. apply List.filter_ext. intros track.
    unfold AudioService.has. rewrite He, lookup_empty. reflexivity. }
  split; [exact Hst|].
  rewrite playTracks_registered, Hst. unfold Pass.registered.
  rewrite He, dom_empty_L, (left_id_L ∅ (∪)). reflexivity.
Qed.

(** X11.  Stopping everything and then running a pass, which is what pause
    followed by play does to the audio service, starts every track that is
    decoded, unmuted, soloed when the solo flag is set, active at the
    position and whose buffer offset [max(0, position - startTime)] is
    short of its duration, and leaves exactly those ids registered. *)
Theorem restart_registers_exactly_the_wanted (tracks : list AudioTrack.t)
    (currentTime : Q) (hasSoloTracks : bool) (s : AudioService.t) :
  let stopped := AudioService.stopAll s in
  let r := AudioService.playTracks tracks currentTime hasSoloTracks
             (fst stopped) in
  let wanted :=
    List.map AudioTrack.id
      (List.filter (Wanted.starts hasSoloTracks currentTime) tracks) in
  AudioService.started (snd r) = wanted
  /\ Pass.registered (fst r) = list_to_set wanted.
Proof.
  cbv zeta.
  apply (pass_starts_from_empty tracks currentTime hasSoloTracks
           (fst (AudioService.stopAll s))).
  reflexivity.
Qed.

(** X12.  [playTrack] goes ahead exactly when the track is decoded, not
    muted and its own range test does not fire, that is unless
    [timelineTime < startTime] or [timelineTime >= getEndTime()]; the solo
    flags and the registry are not consulted.  It then builds a source with
    the track's buffer and volume and, when its last test
    [bufferOffset < duration] holds for the buffer offset
    [max(0, timelineTime - startTime)], issues one start at that offset, at
    the given context time or, without one, at the context clock plus 0.01,
    returns the source and registers it under the track's id, replacing an
    entry that is there; when the last test fails it returns null, issues
    nothing and leaves the registry as it is.  In every other case it
    returns null, issues nothing and leaves the service as it is. *)
Theorem playTrack_starts_audible_active_track (track : AudioTrack.t)
    (timelineTime : Q) (contextStartTime : option Q) (s : AudioService.t) :
  let r := AudioService.playTrack track timelineTime contextStartTime s in
  if bool_decide (is_Some (AudioTrack.audioBuffer track))
     && negb (AudioTrack.isMuted track)
     && negb (Num.ltb timelineTime (AudioTrack.startTime track)
              || Num.geb timelineTime (AudioTrack.getEndTime track))
  then
    if Num.ltb (Qmax 0 (timelineTime - AudioTrack.startTime track))
               (AudioTrack.duration track)
    then
      exists source,
        snd (fst r) = Some source
        /\ snd r = [Start (AudioTrack.id track) source
                      (match contextStartTime with
                       | Some c => c
                       | None => AudioService.contextTime s + (1 # 100)
                       end)
                      (Qmax 0 (timelineTime - AudioTrack.startTime track))]
        /\ AudioService.activeSources (fst (fst r))
           = <[AudioTrack.id track := source]> (AudioService.activeSources s)
        /\ AudioTrack.audioBuffer track = Some (source_buffer source)
        /\ gain_value source = AudioTrack.volume track
    else
      snd (fst r) = None
      /\ snd r = []
      /\ AudioService.activeSources (fst (fst r))
         = AudioService.activeSources s
  else r = (s, None, []).
Proof.
  cbv zeta. unfold AudioService.playTrack.
  destruct (AudioTrack.audioBuffer track) as [buffer|] eqn:Ebuf.
  2:{ rewrite bool_decide_eq_false_2 by (intros [x Hx]; discriminate).
      reflexivity. }
  rewrite bool_decide_eq_true_2 by eauto. cbn [andb].
  destruct (AudioTrack.isMuted track); [reflexivity|]. cbn [negb andb].
  destruct (Num.ltb timelineTime (AudioTrack.startTime track)
            || Num.geb timelineTime (AudioTrack.getEndTime track));
    cbn [negb]; [reflexivity|].
  cbn [AudioService.createSource].
  destruct (Num.ltb _ _).
  - eexists. cbn. repeat split; reflexivity.
  - repeat split; reflexivity.
Qed.

(** *** The listeners for the end of a source *)

(** Node numbers are handed out in increasing order, so the sources
    prepared by one pass have distinct numbers. *)
Lemma prepare_fold_nodes (currentTime : Q) (trs : list AudioTrack.t) :
  forall acc : AudioService.t * list AudioService.Prepared,
  Forall (fun p => (source_node (AudioService.source p)
                    < AudioService.nodesCreated (fst acc))%nat) (snd acc) ->
  NoDup (List.map (fun p => source_node (AudioService.source p)) (snd acc)) ->
  let r := fold_left (AudioService.prepare currentTime) trs acc in
  NoDup (List.map (fun p => source_node (AudioService.source p)) (snd r))
  /\ AudioService.endedListeners (fst r)
     = AudioService.endedListeners (fst acc).
Proof.
  induction trs as [|track trs IH]; intros acc Hlt Hnd; cbn [fold_left].
  - split; [exact Hnd|reflexivity].
  - assert (Hstep :
      AudioService.prepare currentTime acc track = acc
      \/ exists buffer,
           AudioService.prepare currentTime acc track
           = (fst (AudioService.createSource buffer (AudioTrack.volume track)
                     (fst acc)),
              snd acc ++ [ AudioService.mkPrepared
                             (snd (AudioService.createSource buffer
                                     (AudioTrack.volume track) (fst acc)))
                             (AudioTrack.id track)
                             (Qmax 0 (currentTime - AudioTrack.startTime track)) ])).
    { unfold AudioService.prepare.
      destruct (AudioTrack.audioBuffer track) as [buffer|]; [|left; reflexivity].
      destruct (Num.geb _ _); [left; reflexivity|].
      right. exists buffer. reflexivity. }
    destruct Hstep as [E|[buffer E]]; rewrite E.
    + apply IH; assumption.
    + cbv zeta in IH.
      destruct (IH (fst (AudioService.createSource buffer
                           (AudioTrack.volume track) (fst acc)),
                    snd acc ++ [ AudioService.mkPrepared
                                   (snd (AudioService.createSource buffer
                                           (AudioTrack.volume track) (fst acc)))
                                   (AudioTrack.id track)
                                   (Qmax 0 (currentTime
                                            - AudioTrack.startTime track)) ]))
        as [Hnd' Hls].
      * cbn. apply Forall_app. split.
        -- eapply Forall_impl; [exact Hlt|]. cbn. intros p Hp. lia.
        -- repeat constructor. cbn. lia.
      * cbn. rewrite List.map_app. cbn. apply NoDup_app. split; [exact Hnd|].
        split; [|apply NoDup_singleton].
        intros n Hn Hn'. apply list_elem_of_singleton in Hn'. subst n.
        apply list_elem_of_In, in_map_iff in Hn.
        destruct Hn as (p & Hp & Hin).
        rewrite List.Forall_forall in Hlt. specialize (Hlt p Hin). lia.
      * split; [exact Hnd'|]. rewrite Hls. reflexivity.
Qed.

Lemma startSource_fold_listeners (when : Q) (ps : list AudioService.Prepared) :
  forall (acc : AudioService.Result) (p : AudioService.Prepared),
  NoDup (List.map (fun p => source_node (AudioService.source p)) ps) ->
  In p ps ->
  AudioService.endedListeners
    (fst (fold_left (AudioService.startSource when) ps acc))
  !! source_node (AudioService.source p)
  = Some (AudioService.trackId p).
Proof.
  assert (Hother : forall (qs : list AudioService.Prepared)
                          (acc : AudioService.Result) (n : nat),
            ~ In n (List.map (fun p => source_node (AudioService.source p)) qs) ->
            AudioService.endedListeners
              (fst (fold_left (AudioService.startSource when) qs acc)) !! n
            = AudioService.endedListeners (fst acc) !! n).
  { induction qs as [|q qs IH]; intros acc n Hn; cbn [fold_left];
      [reflexivity|].
    cbn in Hn. rewrite IH by tauto. cbn.
    apply lookup_insert_ne. tauto. }
  induction ps as [|q ps IH]; intros acc p Hnd Hin; [destruct Hin|].
  cbn in Hnd. apply NoDup_cons in Hnd. destruct Hnd as [Hq Hnd].
  cbn [fold_left]. destruct Hin as [->|Hin].
  - rewrite Hother.
    + cbn. apply lookup_insert_eq.
    + intros H. apply Hq. apply list_elem_of_In. exact H.
  - apply IH; assumption.
Qed.

(** X13.  Every source that a pass starts has a listener for its end: when
    the source ends, the entry of its track id is deleted from the
    registry, so the id is no longer registered and a later pass may start
    the track again. *)
Theorem ended_source_unregisters_its_track (tracks : list AudioTrack.t)
    (currentTime : Q) (hasSoloTracks : bool) (s : AudioService.t) :
  let r := AudioService.playTracks tracks currentTime hasSoloTracks s in
  Forall
    (fun c => match c with
              | Start trackId source _ _ =>
                  AudioService.sourceEnded source (fst r)
                  = AudioService.delete trackId (fst r)
                  /\ (trackId ∉ Pass.registered
                                  (AudioService.sourceEnded source (fst r)))
              | Stop _ _ => False
              end)
    (snd r).
Proof.
  cbv zeta.
  assert (Hmain : forall c,
    In c (snd (AudioService.playTracks tracks currentTime hasSoloTracks s)) ->
    exists p, c = Pass.start_of (AudioService.contextTime s + (5 # 100)) p
      /\ AudioService.endedListeners
           (fst (AudioService.playTracks tracks currentTime hasSoloTracks s))
         !! source_node (AudioService.source p)
         = Some (AudioService.trackId p)).
  { unfold AudioService.playTracks.
    destruct (AudioService.tracksToStart tracks currentTime hasSoloTracks s)
      as [|t0 ts] eqn:Ets; [intros c []|].
    cbn [length Nat.eqb]. rewrite <- Ets.
    pose proof (prepare_fold_nodes currentTime
                  (AudioService.tracksToStart tracks currentTime hasSoloTracks s)
                  (s, []) (Forall_nil_2 _) (NoDup_nil_2)) as Hnodes.
    cbv zeta in Hnodes.
    destruct (fold_left (AudioService.prepare currentTime) _ (s, []))
      as [s1 ps] eqn:Efold.
    cbn [fst snd] in Hnodes. destruct Hnodes as [Hnd _].
    pose proof (startSource_fold_spec
                  (AudioService.contextTime s + (5 # 100)) ps (s1, []))
      as (Hcmds & _).
    cbn [snd app] in Hcmds.
    intros c Hc. rewrite Hcmds in Hc. apply in_map_iff in Hc.
    destruct Hc as (p & <- & Hp). exists p. split; [reflexivity|].
    apply startSource_fold_listeners; assumption. }
  apply List.Forall_forall. intros c Hc.
  destruct (Hmain c Hc) as (p & -> & Hl).
  unfold Pass.start_of, AudioService.sourceEnded. rewrite Hl.
  split; [reflexivity|].
  unfold Pass.registered. cbn. rewrite dom_delete_L.
  apply not_elem_of_difference. right. apply elem_of_singleton. reflexivity.
Qed.

(** X14.  [setMasterVolume] stores, as the gain of the master node, the
    volume clamped into [0, 1] for every volume other than [NaN], the
    infinities included, and [NaN] for [NaN]; it touches neither the
    registry nor the clock. *)
Theorem setMasterVolume_clamps (v : Number.t) (s : AudioService.t) :
  let s' := AudioService.setMasterVolume v s in
  (v <> Number.NaN ->
   Number.within 0 1 (AudioService.masterGain s')
   /\ Number.clamped 0 1 v (AudioService.masterGain s'))
  /\ AudioService.masterGain (AudioService.setMasterVolume Number.NaN s)
     = Number.NaN
  /\ AudioService.activeSources s' = AudioService.activeSources s
  /\ AudioService.getCurrentTime s' = AudioService.getCurrentTime s.
Proof.
  cbv zeta. cbn. split; [|repeat split; reflexivity].
  intros Hv. apply number_clamp_spec; [reflexivity|exact Hv].
Qed.

Lemma setMasterVolume_clamps_witness :
  Number.Finite (3 # 2) <> Number.NaN
  /\ Number.within 0 1
       (AudioService.masterGain
          (AudioService.setMasterVolume (Number.Finite (3 # 2))
             Sample.service)).
Proof.
  assert (H : Number.Finite (3 # 2) <> Number.NaN) by discriminate.
  split; [exact H|].
  destruct (setMasterVolume_clamps (Number.Finite (3 # 2)) Sample.service)
    as (Hc & _).
  exact (proj1 (Hc H)).
Defined.
End AudioServiceModel.

(** ** The timeline service *)

Section ServiceModel.
Local Open Scope Q_scope.

Lemma stopTrack_empty (trackId : string) (a : AudioService.t) :
  AudioService.activeSources a = ∅ ->
  AudioService.activeSources (fst (AudioService.stopTrack trackId a)) = ∅.
Proof.
  intros H. unfold AudioService.stopTrack. rewrite H, lookup_empty. exact H.
Qed.

Lemma sourceEnded_empty (source : SourceNode) (a : AudioService.t) :
  AudioService.activeSources a = ∅ ->
  AudioService.activeSources (AudioService.sourceEnded source a) = ∅.
Proof.
  intros H. unfold AudioService.sourceEnded.
  destruct (AudioService.endedListeners a !! source_node source); [|exact H].
  cbn. rewrite H. apply delete_empty.
Qed.

Lemma live_unsubscribe (ts : TimelineService.t) :
  TimelineService.live (TimelineService.unsubscribe ts) = false.
Proof.
  unfold TimelineService.live, TimelineService.unsubscribe. cbn.
  destruct (TimelineService.playbackSubscription ts); reflexivity.
Qed.

(** *** What pause, stop and play leave behind *)

Lemma stop_state (ts : TimelineService.t) :
  let r := TimelineService.stop ts in
  Timeline.isPlaying (TimelineService.timeline (fst r)) = false
  /\ TimelineService.live (fst r) = false
  /\ AudioService.activeSources (TimelineService.audioService (fst r)) = ∅
  /\ TimelineService.timeline (fst r)
     = Timeline.stop (TimelineService.timeline ts).
Proof.
  cbv zeta. unfold TimelineService.stop. cbn [fst].
  rewrite live_unsubscribe. repeat split; reflexivity.
Qed.

Lemma pause_state (ts : TimelineService.t) :
  Timeline.isPlaying (TimelineService.timeline ts) = true ->
  let r := TimelineService.pause ts in
  Timeline.isPlaying (TimelineService.timeline (fst r)) = false
  /\ TimelineService.live (fst r) = false
  /\ AudioService.activeSources (TimelineService.audioService (fst r)) = ∅
  /\ TimelineService.timeline (fst r)
     = Timeline.pause (TimelineService.timeline ts)
  /\ snd r = snd (AudioService.stopAll (TimelineService.audioService ts)).
Proof.
  intros Hp. cbv zeta. unfold TimelineService.pause. rewrite Hp. cbn [negb fst snd].
  rewrite live_unsubscribe. repeat split; reflexivity.
Qed.

Lemma play_state (now : Q) (ts : TimelineService.t) :
  Timeline.isPlaying (TimelineService.timeline ts) = false ->
  let tl := Timeline.play (TimelineService.timeline ts) in
  let started :=
    AudioService.playTracks (Timeline.tracks tl) (Timeline.currentTime tl)
      (Timeline.hasAnySoloTracks tl) (TimelineService.audioService ts) in
  let r := TimelineService.play now ts in
  TimelineService.timeline (fst r) = tl
  /\ TimelineService.live (fst r) = true
  /\ TimelineService.audioService (fst r) = fst started
  /\ snd r = snd started
  /\ TimelineService.playbackStartTime (fst r)
     = now - Timeline.currentTime tl * 1000.
Proof.
  intros Hp. cbv zeta. unfold TimelineService.play. rewrite Hp.
  repeat split; reflexivity.
Qed.

(** *** The timeline operations keep the transport flag *)

Lemma updateDuration_frame (tl : Timeline.t) :
  Timeline.updateDuration tl
  = Timeline.mk (Timeline.tracks tl) (Timeline.currentTime tl)
      (Timeline.zoom tl) (Timeline.isPlaying tl) (Timeline.bpm tl)
      (Timeline.duration (Timeline.updateDuration tl)).
Proof.
  unfold Timeline.updateDuration.
  destruct (List.map AudioTrack.getEndTime (Timeline.tracks tl)); reflexivity.
Qed.

Lemma updateDuration_isPlaying (tl : Timeline.t) :
  Timeline.isPlaying (Timeline.updateDuration tl) = Timeline.isPlaying tl.
Proof. rewrite updateDuration_frame. reflexivity. Qed.

Lemma updateTrackPosition_isPlaying (trackId : string) (time : Q)
    (tl : Timeline.t) :
  Timeline.isPlaying (Timeline.updateTrackPosition trackId time tl)
  = Timeline.isPlaying tl.
Proof.
  unfold Timeline.updateTrackPosition.
  destruct (Timeline.getTrack trackId tl); [|reflexivity].
  rewrite updateDuration_isPlaying. reflexivity.
Qed.

(** *** The transport invariant *)

Lemma handle_silent_when_idle (e : TimelineService.Event)
    (ts : TimelineService.t) :
  TimelineService.silent_when_idle ts ->
  TimelineService.silent_when_idle (fst (TimelineService.handle e ts)).
Proof.
  unfold TimelineService.silent_when_idle. intros [Hlive Hidle].
  destruct e as [file decoded gid color|trackId|trackId time|trackId v
                 |trackId|trackId now|now| | |time now|z| |now|source|c];
    cbn [TimelineService.handle].
  - (* addTrack *)
    unfold TimelineService.addTrack. destruct decoded as [buffer|]; cbn [fst];
      [|split; assumption].
    unfold TimelineService.live in *. cbn.
    unfold Timeline.addTrack. rewrite updateDuration_isPlaying. cbn.
    split; assumption.
  - (* removeTrack *)
    unfold TimelineService.removeTrack, TimelineService.live in *. cbn.
    unfold Timeline.removeTrack. rewrite updateDuration_isPlaying. cbn.
    split; [exact Hlive|]. intros Hp. apply stopTrack_empty. auto.
  - (* updateTrackPosition *)
    unfold TimelineService.updateTrackPosition, TimelineService.live in *. cbn.
    rewrite updateTrackPosition_isPlaying. split; assumption.
  - (* updateTrackVolume *)
    unfold TimelineService.updateTrackVolume.
    destruct (Timeline.getTrack trackId (TimelineService.timeline ts));
      cbn [fst]; split; assumption.
  - (* toggleTrackMute *)
    unfold TimelineService.toggleTrackMute.
    destruct (Timeline.getTrack trackId (TimelineService.timeline ts));
      [|split; assumption].
    cbn [Timeline.isPlaying Timeline.with_tracks].
    destruct (Timeline.isPlaying (TimelineService.timeline ts)) eqn:Ep;
      cbn [fst]; unfold TimelineService.live in *; cbn; rewrite Ep.
    + split; [exact Hlive|discriminate].
    + split; [exact Hlive|]. intros _. auto.
  - (* toggleTrackSolo *)
    unfold TimelineService.toggleTrackSolo.
    destruct (Timeline.getTrack trackId (TimelineService.timeline ts));
      [|split; assumption].
    cbn [Timeline.isPlaying Timeline.with_tracks].
    destruct (Timeline.isPlaying (TimelineService.timeline ts)) eqn:Ep;
      cbn [fst].
    + match goal with
      | |- context [TimelineService.pause ?x] =>
          destruct (pause_state x) as (Hp1 & _); [cbn; exact Ep|];
          destruct (play_state now (fst (TimelineService.pause x)) Hp1)
            as (Htl & Hl & _)
      end.
      rewrite Hl, Htl. split; [reflexivity|discriminate].
    + unfold TimelineService.live in *. cbn. rewrite Ep.
      split; [exact Hlive|]. intros _. auto.
  - (* play *)
    destruct (Timeline.isPlaying (TimelineService.timeline ts)) eqn:Ep.
    + unfold TimelineService.play. rewrite Ep. cbn [fst]. rewrite Ep.
      split; [exact Hlive|discriminate].
    + destruct (play_state now ts Ep) as (Htl & Hl & _).
      rewrite Hl, Htl. split; [reflexivity|discriminate].
  - (* pause *)
    destruct (Timeline.isPlaying (TimelineService.timeline ts)) eqn:Ep.
    + destruct (pause_state ts Ep) as (Hp1 & Hl & He & _).
      rewrite Hl, Hp1. split; [reflexivity|]. intros _. exact He.
    + unfold TimelineService.pause. rewrite Ep. cbn [negb fst]. rewrite Ep.
      split; [exact Hlive|]. intros _. auto.
  - (* stop *)
    destruct (stop_state ts) as (Hp1 & Hl & He & _).
    rewrite Hl, Hp1. split; [reflexivity|]. intros _. exact He.
  - (* seek *)
    unfold TimelineService.seek.
    destruct (Timeline.isPlaying (TimelineService.timeline ts)) eqn:Ep;
      cbn [fst].
    + destruct (pause_state ts Ep) as (Hp1 & _).
      match goal with
      | |- context [TimelineService.play now ?x] =>
          destruct (play_state now x) as (Htl & Hl & _); [cbn; exact Hp1|]
      end.
      rewrite Hl, Htl. split; [reflexivity|discriminate].
    + unfold TimelineService.live in *. cbn. rewrite Ep.
      split; [exact Hlive|]. intros _. auto.
  - (* setZoom *)
    split; assumption.
  - (* clearAll *)
    unfold TimelineService.clearAll. cbn [fst].
    destruct (stop_state ts) as (_ & Hl & He & _).
    unfold TimelineService.live in *. cbn in *.
    split; [exact Hl|]. intros _. exact He.
  - (* tick *)
    unfold TimelineService.tick.
    destruct (TimelineService.playbackSubscription ts) as [sub|] eqn:Es;
      [|split; assumption].
    destruct (TimelineService.closed sub) eqn:Ec; [split; assumption|].
    assert (Ep : Timeline.isPlaying (TimelineService.timeline ts) = true).
    { rewrite <- Hlive. unfold TimelineService.live. rewrite Es, Ec.
      reflexivity. }
    destruct (Num.geb _ _); cbn [fst].
    + match goal with
      | |- context [TimelineService.stop ?x] =>
          destruct (stop_state x) as (Hp1 & Hl & He & _)
      end.
      rewrite Hl, Hp1. split; [reflexivity|]. intros _. exact He.
    + unfold TimelineService.live. cbn. rewrite Es, Ec, Ep.
      split; [reflexivity|discriminate].
  - (* a source ends *)
    cbn. split; [exact Hlive|]. intros Hp. apply sourceEnded_empty. auto.
  - (* the context clock *)
    cbn. split; assumption.
Qed.

Lemma fold_handle_invariant (P : TimelineService.t -> Prop) :
  (forall e ts, P ts -> P (fst (TimelineService.handle e ts))) ->
  forall events ts,
    P ts ->
    P (fold_left (fun ts e => fst (TimelineService.handle e ts)) events ts).
Proof.
  intros Hstep. induction events as [|e events IH]; intros ts Hts; cbn;
    [exact Hts|]. apply IH. apply Hstep. exact Hts.
Qed.

(** X15.  In every state the service can reach from a new one, by any
    sequence of method calls, interval firings, ended sources and clock
    readings, the interval is running exactly when the timeline is playing,
    and while the timeline is not playing no source is registered. *)
Theorem not_playing_means_nothing_registered (contextNow : Q)
    (events : list TimelineService.Event) :
  let ts := TimelineService.run contextNow events in
  TimelineService.live ts = Timeline.isPlaying (TimelineService.timeline ts)
  /\ (if Timeline.isPlaying (TimelineService.timeline ts) then True
      else AudioService.activeSources (TimelineService.audioService ts) = ∅).
Proof.
  cbv zeta.
  assert (H : TimelineService.silent_when_idle
                (TimelineService.run contextNow events)).
  { unfold TimelineService.run.
    apply fold_handle_invariant; [exact handle_silent_when_idle|].
    split; [reflexivity|]. intros _. reflexivity. }
  destruct H as [Hl Hi]. split; [exact Hl|].
  destruct (Timeline.isPlaying _); [exact I|]. apply Hi. reflexivity.
Qed.

(** *** The stored duration and the shape of the tracks *)

Lemma in_sync_iff (tl : Timeline.t) :
  Timeline.updateDuration tl = tl
  <-> Timeline.duration (Timeline.updateDuration tl) = Timeline.duration tl.
Proof.
  split; [intros H; rewrite H; reflexivity|].
  intros H. rewrite updateDuration_frame, H. destruct tl; reflexivity.
Qed.

Lemma updateDuration_by_end_times (a b : Timeline.t) :
  List.map AudioTrack.getEndTime (Timeline.tracks a)
  = List.map AudioTrack.getEndTime (Timeline.tracks b) ->
  Timeline.duration (Timeline.updateDuration a)
  = Timeline.duration (Timeline.updateDuration b).
Proof.
  intros H. unfold Timeline.updateDuration. rewrite H.
  destruct (List.map AudioTrack.getEndTime (Timeline.tracks b)); reflexivity.
Qed.

Lemma in_sync_transfer (a b : Timeline.t) :
  List.map AudioTrack.getEndTime (Timeline.tracks b)
  = List.map AudioTrack.getEndTime (Timeline.tracks a) ->
  Timeline.duration b = Timeline.duration a ->
  Timeline.updateDuration a = a ->
  Timeline.updateDuration b = b.
Proof.
  intros Hends Hdur Ha. apply in_sync_iff.
  rewrite (updateDuration_by_end_times b a Hends), Hdur.
  apply in_sync_iff. exact Ha.
Qed.

Lemma update_first_end_times (k : string) (f : AudioTrack.t -> AudioTrack.t)
    (l : list AudioTrack.t) :
  (forall x, AudioTrack.getEndTime (f x) = AudioTrack.getEndTime x) ->
  List.map AudioTrack.getEndTime (Timeline.update_first k f l)
  = List.map AudioTrack.getEndTime l.
Proof.
  intros Hf. induction l as [|a l IH]; cbn; [reflexivity|].
  destruct (String.eqb (AudioTrack.id a) k); cbn; [rewrite Hf|rewrite IH];
    reflexivity.
Qed.

Lemma update_first_Forall (P : AudioTrack.t -> Prop) (k : string)
    (f : AudioTrack.t -> AudioTrack.t) (l : list AudioTrack.t) :
  (forall x, P x -> P (f x)) ->
  Forall P l -> Forall P (Timeline.update_first k f l).
Proof.
  intros Hf. induction 1 as [|a l Ha Hl IH]; cbn; [constructor|].
  destruct (String.eqb (AudioTrack.id a) k); constructor; auto.
Qed.

Lemma handle_well_formed (e : TimelineService.Event)
    (ts : TimelineService.t) :
  TimelineService.well_formed ts ->
  TimelineService.well_formed (fst (TimelineService.handle e ts)).
Proof.
  unfold TimelineService.well_formed. intros [Hsync Hok].
  assert (Hsame : forall tl',
            Timeline.tracks tl' = Timeline.tracks (TimelineService.timeline ts) ->
            Timeline.duration tl' = Timeline.duration (TimelineService.timeline ts) ->
            Timeline.updateDuration tl' = tl'
            /\ Forall (fun track => is_Some (AudioTrack.audioBuffer track))
                      (Timeline.tracks tl')).
  { intros tl' Htr Hdur. split; [|rewrite Htr; exact Hok].
    apply (in_sync_transfer (TimelineService.timeline ts));
      [rewrite Htr; reflexivity|exact Hdur|exact Hsync]. }
  assert (Hupd : forall k f,
            (forall x, AudioTrack.getEndTime (f x) = AudioTrack.getEndTime x) ->
            (forall x, AudioTrack.audioBuffer (f x) = AudioTrack.audioBuffer x) ->
            let tl' := Timeline.with_tracks
                         (Timeline.update_first k f
                            (Timeline.tracks (TimelineService.timeline ts)))
                         (TimelineService.timeline ts) in
            Timeline.updateDuration tl' = tl'
            /\ Forall (fun track => is_Some (AudioTrack.audioBuffer track))
                      (Timeline.tracks tl')).
  { intros k f Hends Hf. cbv zeta. split.
    - apply (in_sync_transfer (TimelineService.timeline ts));
        [cbn; apply update_first_end_times; exact Hends|reflexivity|exact Hsync].
    - cbn. apply update_first_Forall; [|exact Hok].
      intros x Hx. rewrite Hf. exact Hx. }
  destruct e as [file decoded gid color|trackId|trackId time|trackId v
                 |trackId|trackId now|now| | |time now|z| |now|source|c];
    cbn [TimelineService.handle].
  - (* addTrack *)
    unfold TimelineService.addTrack. destruct decoded as [buffer|]; cbn [fst];
      [|split; assumption].
    cbn [TimelineService.timeline TimelineService.with_timeline].
    unfold Timeline.addTrack. split; [apply updateDuration_again|].
    rewrite updateDuration_tracks. cbn. apply Forall_app. split; [exact Hok|].
    apply List.Forall_cons; [|apply List.Forall_nil].
    destruct (last (Timeline.tracks (TimelineService.timeline ts)));
      cbn; eauto.
  - (* removeTrack *)
    cbn. unfold Timeline.removeTrack. split; [apply updateDuration_again|].
    rewrite updateDuration_tracks. cbn.
    rewrite List.Forall_forall in *. intros x Hx.
    apply filter_In in Hx. apply Hok. tauto.
  - (* updateTrackPosition *)
    cbn. unfold Timeline.updateTrackPosition.
    destruct (Timeline.getTrack trackId (TimelineService.timeline ts));
      [|split; assumption].
    split; [apply updateDuration_again|].
    rewrite updateDuration_tracks. cbn.
    apply update_first_Forall; [intros x Hx; exact Hx|exact Hok].
  - (* updateTrackVolume *)
    unfold TimelineService.updateTrackVolume.
    destruct (Timeline.getTrack trackId (TimelineService.timeline ts));
      cbn [fst]; [|split; assumption].
    apply Hupd; reflexivity.
  - (* toggleTrackMute *)
    unfold TimelineService.toggleTrackMute.
    destruct (Timeline.getTrack trackId (TimelineService.timeline ts));
      [|split; assumption].
    destruct (Timeline.isPlaying _); cbn [fst];
      (apply Hupd; reflexivity).
  - (* toggleTrackSolo *)
    unfold TimelineService.toggleTrackSolo.
    destruct (Timeline.getTrack trackId (TimelineService.timeline ts));
      [|split; assumption].
    destruct (Hupd trackId AudioTrack.toggleSolo (fun _ => eq_refl)
                (fun _ => eq_refl)) as [Hs' Hok'].
    cbn [Timeline.isPlaying Timeline.with_tracks].
    destruct (Timeline.isPlaying (TimelineService.timeline ts)) eqn:Ep;
      cbn [fst]; [|split; assumption].
    match goal with
    | |- context [TimelineService.pause ?x] =>
        destruct (pause_state x) as (Hp1 & _ & _ & Htl1 & _); [cbn; exact Ep|];
        destruct (play_state now (fst (TimelineService.pause x)) Hp1)
          as (Htl & _)
    end.
    rewrite Htl, Htl1. cbn [Timeline.tracks Timeline.play Timeline.pause
                              TimelineService.timeline
                              TimelineService.with_timeline].
    split; [|exact Hok'].
    eapply in_sync_transfer; [| |exact Hs']; reflexivity.
  - (* play *)
    destruct (Timeline.isPlaying (TimelineService.timeline ts)) eqn:Ep.
    + unfold TimelineService.play. rewrite Ep. split; assumption.
    + destruct (play_state now ts Ep) as (Htl & _). rewrite Htl.
      apply Hsame; reflexivity.
  - (* pause *)
    destruct (Timeline.isPlaying (TimelineService.timeline ts)) eqn:Ep.
    + destruct (pause_state ts Ep) as (_ & _ & _ & Htl & _). rewrite Htl.
      apply Hsame; reflexivity.
    + unfold TimelineService.pause. rewrite Ep. split; assumption.
  - (* stop *)
    destruct (stop_state ts) as (_ & _ & _ & Htl). rewrite Htl.
    apply Hsame; reflexivity.
  - (* seek *)
    unfold TimelineService.seek.
    destruct (Timeline.isPlaying (TimelineService.timeline ts)) eqn:Ep;
      cbn [fst]; [|apply Hsame; reflexivity].
    destruct (pause_state ts Ep) as (Hp1 & _ & _ & Htl1 & _).
    match goal with
    | |- context [TimelineService.play now ?x] =>
        destruct (play_state now x) as (Htl & _); [cbn; exact Hp1|]
    end.
    rewrite Htl. cbn [TimelineService.timeline TimelineService.with_timeline].
    rewrite Htl1. apply Hsame; reflexivity.
  - (* setZoom *)
    apply Hsame; reflexivity.
  - (* clearAll *)
    cbn. split; [reflexivity|constructor].
  - (* tick *)
    unfold TimelineService.tick.
    destruct (TimelineService.playbackSubscription ts) as [sub|];
      [|split; assumption].
    destruct (TimelineService.closed sub); [split; assumption|].
    destruct (Num.geb _ _); cbn [fst].
    + match goal with
      | |- context [TimelineService.stop ?x] =>
          destruct (stop_state x) as (_ & _ & _ & Htl)
      end.
      rewrite Htl. apply Hsame; reflexivity.
    + apply Hsame; reflexivity.
  - split; assumption.
  - split; assumption.
Qed.

(** X16.  In every state the service can reach from a new one, the stored
    duration is the one [updateDuration] computes from the track list, so
    that running [updateDuration] changes nothing, and every track of the
    timeline is decoded. *)
Theorem reachable_timeline_is_well_formed (contextNow : Q)
    (events : list TimelineService.Event) :
  let tl := TimelineService.timeline (TimelineService.run contextNow events) in
  Timeline.updateDuration tl = tl
  /\ Forall (fun track => is_Some (AudioTrack.audioBuffer track))
            (Timeline.tracks tl).
Proof.
  cbv zeta. unfold TimelineService.run.
  apply (fold_handle_invariant TimelineService.well_formed
           handle_well_formed).
  split; [reflexivity|constructor].
Qed.
(** *** Adding, removing and changing tracks through the service *)

(** X17.  [addTrack], once the file is decoded, appends a new track that
    carries the generated id, the file's name, the buffer and its duration,
    full volume and no mute or solo.  The track starts where the last
    track of the list ends (clamped at 0), or at 0 on an empty timeline; the
    other tracks and the audio service are untouched and the duration is
    recomputed, to at least 60.  When decoding fails nothing is added. *)
Theorem addTrack_places_after_last_track (file : File) (buffer : AudioBuffer)
    (generatedId randomColor : string) (ts : TimelineService.t) :
  TimelineService.addTrack file None generatedId randomColor ts = None
  /\ exists ts' track,
       TimelineService.addTrack file (Some buffer) generatedId randomColor ts
       = Some ts'
       /\ Timeline.tracks (TimelineService.timeline ts')
          = Timeline.tracks (TimelineService.timeline ts) ++ [track]
       /\ track = AudioTrack.mk generatedId (file_name file) (Some buffer) file
                    (match last (Timeline.tracks (TimelineService.timeline ts)) with
                     | Some lastTrack => Qmax 0 (AudioTrack.getEndTime lastTrack)
                     | None => 0
                     end)
                    (buffer_duration buffer) 1 false false randomColor
       /\ 60 <= Timeline.duration (TimelineService.timeline ts')
       /\ TimelineService.audioService ts' = TimelineService.audioService ts.
Proof.
  split; [reflexivity|].
  unfold TimelineService.addTrack. eexists _, _. split; [reflexivity|].
  cbn [TimelineService.timeline TimelineService.with_timeline
       TimelineService.audioService].
  unfold Timeline.addTrack. rewrite updateDuration_tracks.
  cbn [Timeline.tracks Timeline.with_tracks].
  split; [reflexivity|]. split; [|split; [|reflexivity]].
  - destruct (last (Timeline.tracks (TimelineService.timeline ts)));
      reflexivity.
  - apply updateDuration_nonempty. cbn.
    destruct (Timeline.tracks (TimelineService.timeline ts)); discriminate.
Qed.

Lemma getTrack_removeTrack (trackId : string) (tl : Timeline.t) :
  Timeline.getTrack trackId (Timeline.removeTrack trackId tl) = None.
Proof.
  unfold Timeline.removeTrack, Timeline.getTrack.
  rewrite updateDuration_tracks. cbn [Timeline.tracks Timeline.with_tracks].
  induction (Timeline.tracks tl) as [|a l IH]; cbn; [reflexivity|].
  destruct (String.eqb (AudioTrack.id a) trackId) eqn:E; cbn; [exact IH|].
  rewrite E. exact IH.
Qed.

(** X18.  The service's [removeTrack] stops the source registered under
    the id, if there is one, before it removes the tracks: afterwards the
    timeline has no track with the id, the registry has no entry for it,
    every other entry is kept, and the only command issued is that stop. *)
Theorem removeTrack_leaves_no_source (trackId : string)
    (ts : TimelineService.t) :
  let r := TimelineService.removeTrack trackId ts in
  Timeline.getTrack trackId (TimelineService.timeline (fst r)) = None
  /\ (trackId ∉ Pass.registered (TimelineService.audioService (fst r)))
  /\ AudioService.activeSources (TimelineService.audioService (fst r))
     = delete trackId
         (AudioService.activeSources (TimelineService.audioService ts))
  /\ snd r
     = match AudioService.activeSources (TimelineService.audioService ts)
             !! trackId with
       | Some source => [Stop trackId source]
       | None => []
       end.
Proof.
  cbv zeta. unfold TimelineService.removeTrack.
  cbn [fst snd TimelineService.timeline TimelineService.audioService
       TimelineService.with_timeline TimelineService.with_audio].
  split; [apply getTrack_removeTrack|].
  unfold AudioService.stopTrack, Pass.registered.
  destruct (AudioService.activeSources (TimelineService.audioService ts)
              !! trackId) as [source|] eqn:E; cbn.
  - repeat split; try reflexivity.
    rewrite dom_delete_L. apply not_elem_of_difference. right.
    apply elem_of_singleton. reflexivity.
  - repeat split; try reflexivity.
    + apply not_elem_of_dom. exact E.
    + symmetry. apply delete_id. exact E.
Qed.

(** X19.  [updateTrackVolume] stores the clamped volume in the first track
    that has the id: [getTrack] then returns that track with the new
    volume, tracks with other ids are found as before and the duration
    stays.  The audio service is not touched, so a source that is already
    registered keeps the gain it was created with.  For an id that no
    track has, nothing changes. *)
Theorem updateTrackVolume_changes_the_model_only (trackId : string)
    (v : Number.t) (ts : TimelineService.t) :
  let ts' := TimelineService.updateTrackVolume trackId v ts in
  TimelineService.audioService ts' = TimelineService.audioService ts
  /\ Timeline.duration (TimelineService.timeline ts')
     = Timeline.duration (TimelineService.timeline ts)
  /\ match Timeline.getTrack trackId (TimelineService.timeline ts) with
     | None => ts' = ts
     | Some track =>
         Timeline.getTrack trackId (TimelineService.timeline ts')
         = Some (AudioTrack.setVolume v track)
         /\ (forall other, other <> trackId ->
               Timeline.getTrack other (TimelineService.timeline ts')
               = Timeline.getTrack other (TimelineService.timeline ts))
     end.
Proof.
  cbv zeta. unfold TimelineService.updateTrackVolume.
  destruct (Timeline.getTrack trackId (TimelineService.timeline ts))
    as [track|] eqn:Eget; [|repeat split; reflexivity].
  split; [reflexivity|]. split; [reflexivity|].
  unfold Timeline.getTrack in *. cbn. split.
  - apply find_update_first_same; [reflexivity|exact Eget].
  - intros other Hne. apply find_update_first_other; [reflexivity|exact Hne].
Qed.

(** X20.  [clearAll] stops every registered source and leaves a timeline
    without tracks, at position 0 with duration 0, not playing, with an
    empty registry and the interval off; the zoom is kept. *)
Theorem clearAll_resets_everything_but_zoom (ts : TimelineService.t) :
  let r := TimelineService.clearAll ts in
  TimelineService.timeline (fst r)
  = Timeline.mk [] 0 (Timeline.zoom (TimelineService.timeline ts)) false
      (Timeline.bpm (TimelineService.timeline ts)) 0
  /\ AudioService.activeSources (TimelineService.audioService (fst r)) = ∅
  /\ TimelineService.live (fst r) = false
  /\ snd r = snd (AudioService.stopAll (TimelineService.audioService ts))
  /\ length (snd r)
     = size (AudioService.activeSources (TimelineService.audioService ts)).
Proof.
  cbv zeta. unfold TimelineService.clearAll. cbn [fst snd].
  destruct (stop_state ts) as (_ & Hl & He & Htl).
  split; [|split; [|split; [|split]]].
  - cbn. reflexivity.
  - exact He.
  - unfold TimelineService.live in *. exact Hl.
  - reflexivity.
  - cbn. rewrite length_map. apply length_map_to_list.
Qed.

Lemma updateTrackVolume_changes_the_model_only_witness :
  let ts := TimelineService.run 0
              [TimelineService.OnAddTrack (mkFile "a.wav")
                 (Some (mkAudioBuffer 5)) "a" "#4ECDC4";
               TimelineService.OnAddTrack (mkFile "b.wav")
                 (Some (mkAudioBuffer 7)) "b" "#FF6B6B"] in
  is_Some (Timeline.getTrack "a" (TimelineService.timeline ts))
  /\ "b"%string <> "a"%string
  /\ Timeline.getTrack "b"
       (TimelineService.timeline (TimelineService.updateTrackVolume "a" 2 ts))
     = Timeline.getTrack "b" (TimelineService.timeline ts).
Proof.
  cbv zeta.
  assert (Hne : "b"%string <> "a"%string) by discriminate.
  split; [eexists; reflexivity|]. split; [exact Hne|].
  match goal with
  | |- context [TimelineService.updateTrackVolume "a" ?v ?x] =>
      pose proof (updateTrackVolume_changes_the_model_only "a" v x) as H
  end.
  cbv zeta in H. destruct H as (_ & _ & H).
  match type of H with
  | match ?g with _ => _ end =>
      let v := eval vm_compute in g in change g with v in H
  end.
  cbv beta iota in H. destruct H as (_ & Hother).
  exact (Hother "b"%string Hne).
Defined.

(** *** The transport: play, pause, seek, the toggles and the interval *)

(** X22.  [pause] on a playing timeline clears the playing flag, stops
    every registered source, empties the registry, turns the interval off
    and records the position, which it does not change; on a timeline that
    is not playing it does nothing. *)
Theorem pause_stops_all_and_keeps_position (ts : TimelineService.t) :
  let r := TimelineService.pause ts in
  let tl := TimelineService.timeline ts in
  if Timeline.isPlaying tl then
    TimelineService.timeline (fst r)
    = Timeline.mk (Timeline.tracks tl) (Timeline.currentTime tl)
        (Timeline.zoom tl) false (Timeline.bpm tl) (Timeline.duration tl)
    /\ AudioService.activeSources (TimelineService.audioService (fst r)) = ∅
    /\ TimelineService.live (fst r) = false
    /\ TimelineService.pausedAt (fst r) = Timeline.currentTime tl
    /\ snd r = snd (AudioService.stopAll (TimelineService.audioService ts))
    /\ length (snd r)
       = size (AudioService.activeSources (TimelineService.audioService ts))
  else r = (ts, []).
Proof.
  cbv zeta.
  destruct (Timeline.isPlaying (TimelineService.timeline ts)) eqn:Ep.
  - destruct (pause_state ts Ep) as (_ & Hl & He & Htl & Hc).
    split; [rewrite Htl; reflexivity|]. split; [exact He|].
    split; [exact Hl|]. split.
    + unfold TimelineService.pause. rewrite Ep. reflexivity.
    + split; [exact Hc|]. rewrite Hc. cbn. rewrite length_map.
      apply length_map_to_list.
  - unfold TimelineService.pause. rewrite Ep. reflexivity.
Qed.


(** X21.  [play] on a timeline that is not playing sets the playing flag,
    starts the interval, keeping with it the solo flag it read from the
    timeline, anchors the wall clock at [now - position * 1000] and runs one
    pass at the current position; the pass issues no stop and, when nothing
    was registered, starts and registers exactly the tracks that are
    decoded, unmuted, soloed when any track is, active at the position and
    whose buffer offset is short of their duration.  A second [play] changes
    nothing and issues nothing. *)
Theorem play_starts_the_wanted_tracks_once (now now' : Q)
    (ts : TimelineService.t) :
  let r := TimelineService.play now ts in
  let tl := TimelineService.timeline ts in
  let wanted :=
    List.map AudioTrack.id
      (List.filter
         (Wanted.starts (Timeline.hasAnySoloTracks tl) (Timeline.currentTime tl))
         (Timeline.tracks tl)) in
  TimelineService.play now' (fst r) = (fst r, [])
  /\ (Timeline.isPlaying tl = false ->
      TimelineService.timeline (fst r) = Timeline.play tl
      /\ TimelineService.playbackSubscription (fst r)
         = Some (TimelineService.mkSubscription false
                   (Timeline.hasAnySoloTracks tl))
      /\ TimelineService.playbackStartTime (fst r)
         = now - Timeline.currentTime tl * 1000
      /\ List.existsb AudioService.is_stop (snd r) = false
      /\ (AudioService.activeSources (TimelineService.audioService ts) = ∅ ->
          AudioService.started (snd r) = wanted
          /\ Pass.registered (TimelineService.audioService (fst r))
             = list_to_set wanted)).
Proof.
  cbv zeta. split.
  - destruct (Timeline.isPlaying (TimelineService.timeline ts)) eqn:Ep.
    + unfold TimelineService.play at 2 3. rewrite Ep. cbn [fst].
      unfold TimelineService.play. rewrite Ep. reflexivity.
    + destruct (play_state now ts Ep) as (Htl & _).
      unfold TimelineService.play at 1. rewrite Htl. reflexivity.
  - intros Ep.
    destruct (play_state now ts Ep) as (Htl & _ & Ha & Hc & Hs).
    split; [exact Htl|]. split.
    { unfold TimelineService.play. rewrite Ep. reflexivity. }
    split; [exact Hs|]. split; [rewrite Hc; apply pass_no_stop|].
    intros He. rewrite Hc, Ha.
    apply (pass_starts_from_empty
             (Timeline.tracks (Timeline.play (TimelineService.timeline ts)))
             (Timeline.currentTime (Timeline.play (TimelineService.timeline ts)))
             (Timeline.hasAnySoloTracks (Timeline.play (TimelineService.timeline ts)))
             (TimelineService.audioService ts) He).
Qed.

Lemma play_starts_the_wanted_tracks_once_witness :
  let ts := fst (TimelineService.handle
                   (TimelineService.OnAddTrack (mkFile "a.wav")
                      (Some (mkAudioBuffer 5)) "a" "#4ECDC4")
                   (TimelineService.new 0)) in
  Timeline.isPlaying (TimelineService.timeline ts) = false
  /\ AudioService.activeSources (TimelineService.audioService ts) = ∅
  /\ AudioService.started (snd (TimelineService.play 1000 ts)) = ["a"%string].
Proof.
  cbv zeta. split; [reflexivity|]. split; [reflexivity|].
  match goal with
  | |- context [TimelineService.play 1000 ?x] =>
      destruct (play_starts_the_wanted_tracks_once 1000 1000 x)
        as (_ & H)
  end.
  destruct (H eq_refl) as (_ & _ & _ & _ & Hst).
  destruct (Hst eq_refl) as (Hstarted & _). exact Hstarted.
Defined.

(** X23.  [seek] stores [max(0, min(time, duration))] as the position and
    changes nothing else of the timeline.  On a playing timeline it first
    stops every registered source, one stop per entry, then re-anchors the
    wall clock for the new position and runs a pass there, which issues no
    stop and starts and registers exactly the tracks that are decoded,
    unmuted, soloed when any track is, active at the new position and whose
    buffer offset is short of their duration.  On a timeline that is not
    playing it issues nothing and leaves the audio service as it is. *)
Theorem seek_restarts_at_the_new_position (time now : Q)
    (ts : TimelineService.t) :
  let r := TimelineService.seek time now ts in
  let tl := TimelineService.timeline ts in
  let position := Qmax 0 (Qmin time (Timeline.duration tl)) in
  let wanted :=
    List.map AudioTrack.id
      (List.filter
         (Wanted.starts (Timeline.hasAnySoloTracks tl) position)
         (Timeline.tracks tl)) in
  TimelineService.timeline (fst r)
  = Timeline.mk (Timeline.tracks tl) position (Timeline.zoom tl)
      (Timeline.isPlaying tl) (Timeline.bpm tl) (Timeline.duration tl)
  /\ if Timeline.isPlaying tl then
       (exists starts,
          snd r = snd (AudioService.stopAll (TimelineService.audioService ts))
                  ++ starts
          /\ List.existsb AudioService.is_stop starts = false
          /\ AudioService.started starts = wanted)
       /\ length (snd (AudioService.stopAll (TimelineService.audioService ts)))
          = size (AudioService.activeSources (TimelineService.audioService ts))
       /\ Pass.registered (TimelineService.audioService (fst r))
          = list_to_set wanted
       /\ TimelineService.live (fst r) = true
       /\ TimelineService.playbackStartTime (fst r) = now - position * 1000
     else
       TimelineService.audioService (fst r) = TimelineService.audioService ts
       /\ snd r = [].
Proof.
  cbv zeta. unfold TimelineService.seek.
  destruct (Timeline.isPlaying (TimelineService.timeline ts)) eqn:Ep;
    cbn [fst snd];
    [|split; [unfold Timeline.setCurrentTime; cbn; rewrite Ep; reflexivity
             |split; reflexivity]].
  destruct (pause_state ts Ep) as (Hp1 & _ & He & Htl1 & Hc1).
  match goal with
  | |- context [TimelineService.play now ?x] =>
      destruct (play_state now x) as (Htl & Hl & Ha & Hc & Hs);
        [cbn; exact Hp1|];
      pose proof (pass_starts_from_empty
                    (Timeline.tracks (Timeline.play (TimelineService.timeline x)))
                    (Timeline.currentTime (Timeline.play (TimelineService.timeline x)))
                    (Timeline.hasAnySoloTracks (Timeline.play (TimelineService.timeline x)))
                    (TimelineService.audioService x) He) as Hpass
  end.
  cbv zeta in Hpass. destruct Hpass as [Hst Hreg].
  cbn [TimelineService.timeline TimelineService.with_timeline
       TimelineService.audioService] in *.
  rewrite Htl1 in *.
  split; [rewrite Htl; reflexivity|].
  split; [|split; [|split; [|split]]].
  - eexists. split; [rewrite Hc1; reflexivity|].
    split; [rewrite Hc; apply pass_no_stop|]. rewrite Hc. exact Hst.
  - cbn. rewrite length_map. apply length_map_to_list.
  - rewrite Ha. exact Hreg.
  - exact Hl.
  - rewrite Hs. reflexivity.
Qed.

(** X24.  [toggleTrackSolo] flips the solo flag of the first track that has
    the id and leaves the position and the rest of the timeline as they
    are.  On a playing timeline it then pauses and plays again: every
    registered source is stopped, one stop per entry, and a pass, which
    issues no stop, starts and registers exactly the tracks that under the
    new solo flags are decoded, unmuted, soloed when any track is, active at
    the position and whose buffer offset is short of their duration.  On a
    timeline that is not playing the audio service is not touched, and for
    an id that no track has nothing happens. *)
Theorem toggleTrackSolo_restarts_playback (trackId : string) (now : Q)
    (ts : TimelineService.t) :
  let r := TimelineService.toggleTrackSolo trackId now ts in
  let tl := TimelineService.timeline ts in
  match Timeline.getTrack trackId tl with
  | None => r = (ts, [])
  | Some track =>
      let tracks' :=
        Timeline.update_first trackId AudioTrack.toggleSolo (Timeline.tracks tl) in
      let wanted :=
        List.map AudioTrack.id
          (List.filter
             (Wanted.starts (List.existsb AudioTrack.isSolo tracks')
                (Timeline.currentTime tl))
             tracks') in
      TimelineService.timeline (fst r)
      = Timeline.mk tracks' (Timeline.currentTime tl) (Timeline.zoom tl)
          (Timeline.isPlaying tl) (Timeline.bpm tl) (Timeline.duration tl)
      /\ Timeline.getTrack trackId (TimelineService.timeline (fst r))
         = Some (AudioTrack.toggleSolo track)
      /\ if Timeline.isPlaying tl then
           (exists starts,
              snd r
              = snd (AudioService.stopAll (TimelineService.audioService ts))
                ++ starts
              /\ List.existsb AudioService.is_stop starts = false
              /\ AudioService.started starts = wanted)
           /\ length
                (snd (AudioService.stopAll (TimelineService.audioService ts)))
              = size (AudioService.activeSources
                        (TimelineService.audioService ts))
           /\ Pass.registered (TimelineService.audioService (fst r))
              = list_to_set wanted
           /\ TimelineService.live (fst r) = true
         else
           TimelineService.audioService (fst r)
           = TimelineService.audioService ts
           /\ snd r = []
  end.
Proof.
  cbv zeta. unfold TimelineService.toggleTrackSolo.
  destruct (Timeline.getTrack trackId (TimelineService.timeline ts))
    as [track|] eqn:Eget; [|reflexivity].
  assert (Hfind : Timeline.getTrack trackId
                    (Timeline.with_tracks
                       (Timeline.update_first trackId AudioTrack.toggleSolo
                          (Timeline.tracks (TimelineService.timeline ts)))
                       (TimelineService.timeline ts))
                  = Some (AudioTrack.toggleSolo track)).
  { unfold Timeline.getTrack in *. cbn.
    apply find_update_first_same; [reflexivity|exact Eget]. }
  cbn [Timeline.isPlaying Timeline.with_tracks].
  destruct (Timeline.isPlaying (TimelineService.timeline ts)) eqn:Ep;
    cbn [fst snd].
  2:{ split; [unfold Timeline.with_tracks; rewrite Ep; reflexivity|].
      split; [exact Hfind|split; reflexivity]. }
  match goal with
  | |- context [TimelineService.pause ?x] =>
      destruct (pause_state x) as (Hp1 & _ & He & Htl1 & Hc1);
        [cbn; exact Ep|];
      destruct (play_state now (fst (TimelineService.pause x)) Hp1)
        as (Htl & Hl & Ha & Hc & _);
      pose proof (pass_starts_from_empty
                    (Timeline.tracks (Timeline.play
                       (TimelineService.timeline (fst (TimelineService.pause x)))))
                    (Timeline.currentTime (Timeline.play
                       (TimelineService.timeline (fst (TimelineService.pause x)))))
                    (Timeline.hasAnySoloTracks (Timeline.play
                       (TimelineService.timeline (fst (TimelineService.pause x)))))
                    (TimelineService.audioService (fst (TimelineService.pause x)))
                    He) as Hpass
  end.
  cbv zeta in Hpass. destruct Hpass as [Hst Hreg].
  rewrite Htl1 in *.
  cbn [TimelineService.timeline TimelineService.with_timeline
       TimelineService.audioService] in *.
  assert (Heq : Timeline.play
                  (Timeline.pause
                     (Timeline.with_tracks
                        (Timeline.update_first trackId AudioTrack.toggleSolo
                           (Timeline.tracks (TimelineService.timeline ts)))
                        (TimelineService.timeline ts)))
                = Timeline.mk
                    (Timeline.update_first trackId AudioTrack.toggleSolo
                       (Timeline.tracks (TimelineService.timeline ts)))
                    (Timeline.currentTime (TimelineService.timeline ts))
                    (Timeline.zoom (TimelineService.timeline ts)) true
                    (Timeline.bpm (TimelineService.timeline ts))
                    (Timeline.duration (TimelineService.timeline ts)))
    by reflexivity.
  rewrite Htl, Heq. split; [reflexivity|]. split; [exact Hfind|].
  split; [|split; [|split; [|exact Hl]]].
  - eexists. split; [rewrite Hc1; reflexivity|].
    split; [rewrite Hc; apply pass_no_stop|]. rewrite Hc. exact Hst.
  - cbn. rewrite length_map. apply length_map_to_list.
  - rewrite Ha. exact Hreg.
Qed.

Lemma update_first_ids (k : string) (f : AudioTrack.t -> AudioTrack.t)
    (l : list AudioTrack.t) :
  (forall x, AudioTrack.id (f x) = AudioTrack.id x) ->
  List.map AudioTrack.id (Timeline.update_first k f l)
  = List.map AudioTrack.id l.
Proof.
  intros Hf. induction l as [|a l IH]; cbn; [reflexivity|].
  destruct (String.eqb (AudioTrack.id a) k); cbn; [rewrite Hf|rewrite IH];
    reflexivity.
Qed.

Lemma has_after_stopTrack (trackId k : string) (a : AudioService.t) :
  AudioService.has k (fst (AudioService.stopTrack trackId a))
  = negb (String.eqb k trackId) && AudioService.has k a.
Proof.
  unfold AudioService.stopTrack, AudioService.has.
  destruct (String.eqb k trackId) eqn:E.
  - apply String.eqb_eq in E. subst k. cbn [negb andb].
    destruct (AudioService.activeSources a !! trackId) eqn:El; cbn.
    + rewrite lookup_delete_eq. reflexivity.
    + rewrite El. reflexivity.
  - apply String.eqb_neq in E. cbn [negb andb].
    destruct (AudioService.activeSources a !! trackId) eqn:El; cbn;
      [|reflexivity].
    rewrite lookup_delete_ne by congruence. reflexivity.
Qed.

Lemma registered_after_stopTrack (trackId : string) (a : AudioService.t) :
  Pass.registered (fst (AudioService.stopTrack trackId a))
  = Pass.registered a ∖ {[trackId]}.
Proof.
  unfold Pass.registered, AudioService.stopTrack.
  destruct (AudioService.activeSources a !! trackId) as [src|] eqn:E; cbn.
  - apply dom_delete_L.
  - apply set_eq. intros k. rewrite elem_of_difference, elem_of_singleton.
    split; [|tauto]. intros Hk. split; [exact Hk|].
    intros ->. apply elem_of_dom in Hk. rewrite E in Hk.
    destruct Hk as [x Hx]. discriminate.
Qed.

(** X25.  [toggleTrackMute] flips the mute flag of the first track that
    has the id.  On a playing timeline it then issues the stop of the
    source registered under the id, when there is one, followed by the
    starts of a pass, which issues no stop: the pass starts the tracks that
    are the toggled id or not registered, and decoded, unmuted, soloed when
    any track is, active at the position and whose buffer offset is short
    of their duration; the registry afterwards holds the ids it held,
    without the toggled one, together with the started ids.  When the ids
    of the tracks are distinct and the track was not muted before, its id
    is therefore not registered afterwards.  On a timeline that is not
    playing the audio service is not touched. *)
Theorem toggleTrackMute_restarts_one_track (trackId : string)
    (ts : TimelineService.t) :
  let r := TimelineService.toggleTrackMute trackId ts in
  let tl := TimelineService.timeline ts in
  let a := TimelineService.audioService ts in
  match Timeline.getTrack trackId tl with
  | None => r = (ts, [])
  | Some track =>
      let tracks' :=
        Timeline.update_first trackId AudioTrack.toggleMute (Timeline.tracks tl) in
      TimelineService.timeline (fst r)
      = Timeline.mk tracks' (Timeline.currentTime tl) (Timeline.zoom tl)
          (Timeline.isPlaying tl) (Timeline.bpm tl) (Timeline.duration tl)
      /\ Timeline.getTrack trackId (TimelineService.timeline (fst r))
         = Some (AudioTrack.toggleMute track)
      /\ if Timeline.isPlaying tl then
           (exists starts,
              snd r
              = match AudioService.activeSources a !! trackId with
                | Some source => [Stop trackId source]
                | None => []
                end ++ starts
              /\ List.existsb AudioService.is_stop starts = false
              /\ AudioService.started starts
                 = List.map AudioTrack.id
                     (List.filter
                        (fun x =>
                           (String.eqb (AudioTrack.id x) trackId
                            || negb (AudioService.has (AudioTrack.id x) a))
                           && Wanted.starts
                                (List.existsb AudioTrack.isSolo tracks')
                                (Timeline.currentTime tl) x)
                        tracks')
              /\ Pass.registered (TimelineService.audioService (fst r))
                 = (Pass.registered a ∖ {[trackId]})
                   ∪ list_to_set (AudioService.started starts))
           /\ (NoDup (List.map AudioTrack.id (Timeline.tracks tl)) ->
               AudioTrack.isMuted track = false ->
               trackId ∉ Pass.registered
                            (TimelineService.audioService (fst r)))
         else
           TimelineService.audioService (fst r) = a
           /\ snd r = []
  end.
Proof.
  cbv zeta. unfold TimelineService.toggleTrackMute.
  destruct (Timeline.getTrack trackId (TimelineService.timeline ts))
    as [track|] eqn:Eget; [|reflexivity].
  assert (Hfind : Timeline.getTrack trackId
                    (Timeline.with_tracks
                       (Timeline.update_first trackId AudioTrack.toggleMute
                          (Timeline.tracks (TimelineService.timeline ts)))
                       (TimelineService.timeline ts))
                  = Some (AudioTrack.toggleMute track)).
  { unfold Timeline.getTrack in *. cbn.
    apply find_update_first_same; [reflexivity|exact Eget]. }
  cbn [Timeline.isPlaying Timeline.with_tracks].
  destruct (Timeline.isPlaying (TimelineService.timeline ts)) eqn:Ep;
    cbn [fst snd TimelineService.timeline TimelineService.with_timeline
         TimelineService.audioService TimelineService.with_audio].
  2:{ split; [unfold Timeline.with_tracks; rewrite Ep; reflexivity|].
      split; [exact Hfind|split; reflexivity]. }
  split; [unfold Timeline.with_tracks; rewrite Ep; reflexivity|].
  split; [exact Hfind|].
  unfold AudioService.updatePlayback.
  cbn [Timeline.tracks Timeline.currentTime Timeline.with_tracks].
  set (tracks' := Timeline.update_first trackId AudioTrack.toggleMute
                    (Timeline.tracks (TimelineService.timeline ts))).
  set (a := TimelineService.audioService ts).
  set (flag := Timeline.hasAnySoloTracks
                 (Timeline.with_tracks tracks' (TimelineService.timeline ts))).
  set (ct := Timeline.currentTime (TimelineService.timeline ts)).
  assert (Hst : AudioService.started
                  (snd (AudioService.playTracks tracks' ct flag
                          (fst (AudioService.stopTrack trackId a))))
                = List.map AudioTrack.id
                    (List.filter
                       (fun x =>
                          (String.eqb (AudioTrack.id x) trackId
                           || negb (AudioService.has (AudioTrack.id x) a))
                          && Wanted.starts (List.existsb AudioTrack.isSolo tracks')
                               ct x)
                       tracks')).
  { rewrite pass_starts. f_equal. apply List.filter_ext. intros x.
    rewrite has_after_stopTrack.
    destruct (String.eqb (AudioTrack.id x) trackId),
      (AudioService.has (AudioTrack.id x) a); reflexivity. }
  assert (Hreg : Pass.registered
                   (fst (AudioService.playTracks tracks' ct flag
                           (fst (AudioService.stopTrack trackId a))))
                 = (Pass.registered a ∖ {[trackId]})
                   ∪ list_to_set
                       (AudioService.started
                          (snd (AudioService.playTracks tracks' ct flag
                                  (fst (AudioService.stopTrack trackId a)))))).
  { rewrite playTracks_registered, registered_after_stopTrack. reflexivity. }
  split.
  - eexists. split.
    + unfold AudioService.stopTrack at 1. fold a.
      destruct (AudioService.activeSources a !! trackId); reflexivity.
    + split; [apply pass_no_stop|]. split; [exact Hst|exact Hreg].
  - intros Hnd Hmuted. rewrite Hreg, Hst.
    apply not_elem_of_union. split.
    + apply not_elem_of_difference. right. apply elem_of_singleton.
      reflexivity.
    + rewrite elem_of_list_to_set, list_elem_of_In, in_map_iff.
      intros (x & Hid & Hin). apply filter_In in Hin. destruct Hin as [Hin Hel].
      assert (Hx : x = AudioTrack.toggleMute track).
      { apply (NoDup_map_In_inj AudioTrack.id tracks').
        - unfold tracks'. rewrite update_first_ids; [exact Hnd|reflexivity].
        - exact Hin.
        - unfold Timeline.getTrack in Hfind. cbn in Hfind.
          apply find_some in Hfind. tauto.
        - rewrite Hid. unfold Timeline.getTrack in Eget.
          apply find_some in Eget. destruct Eget as [_ E].
          apply String.eqb_eq in E. cbn. symmetry. exact E. }
      subst x. apply andb_true_iff in Hel. destruct Hel as [_ Hel].
      unfold Wanted.starts, Resolver.eligible in Hel. cbn in Hel.
      rewrite Hmuted in Hel. cbn in Hel.
      rewrite !andb_false_r in Hel. cbn in Hel. discriminate.
Qed.

Lemma toggleTrackMute_restarts_one_track_witness :
  let ts := TimelineService.run 0
              [TimelineService.OnAddTrack (mkFile "a.wav")
                 (Some (mkAudioBuffer 5)) "a" "#4ECDC4";
               TimelineService.OnAddTrack (mkFile "b.wav")
                 (Some (mkAudioBuffer 7)) "b" "#FF6B6B";
               TimelineService.OnPlay 1000] in
  NoDup (List.map AudioTrack.id (Timeline.tracks (TimelineService.timeline ts)))
  /\ AudioService.has "a" (TimelineService.audioService ts) = true
  /\ ("a"%string
      ∉ Pass.registered
          (TimelineService.audioService
             (fst (TimelineService.toggleTrackMute "a" ts)))).
Proof.
  cbv zeta.
  match goal with
  | |- NoDup ?l /\ _ =>
      assert (Hnd : NoDup l)
        by (cbn; repeat constructor; rewrite ?list_elem_of_In; cbn;
            intuition discriminate)
  end.
  split; [exact Hnd|]. split; [reflexivity|].
  match goal with
  | |- context [TimelineService.toggleTrackMute "a" ?x] =>
      pose proof (toggleTrackMute_restarts_one_track "a" x) as H
  end.
  cbv zeta in H.
  match type of H with
  | match ?g with _ => _ end =>
      let v := eval vm_compute in g in change g with v in H
  end.
  cbv beta iota in H. destruct H as (_ & _ & H).
  match type of H with
  | if ?g then _ else _ =>
      let v := eval vm_compute in g in change g with v in H
  end.
  cbv beta iota in H. destruct H as (_ & Hquiet).
  apply Hquiet; [exact Hnd|reflexivity].
Defined.

(** Where the solo flag of an open subscription comes from: a method call
    either leaves the open subscription as it was, or opens one itself, and
    then the flag is [hasAnySoloTracks()] of the timeline as the call leaves
    it. *)
Lemma open_subscription_flag (e : TimelineService.Event)
    (ts : TimelineService.t) :
  let ts' := fst (TimelineService.handle e ts) in
  match TimelineService.playbackSubscription ts' with
  | Some sub' =>
      TimelineService.closed sub' = false ->
      TimelineService.playbackSubscription ts = Some sub'
      \/ TimelineService.hasSoloTracks sub'
         = Timeline.hasAnySoloTracks (TimelineService.timeline ts')
  | None => True
  end.
Proof.
  cbv zeta.
  assert (Hstop : forall x,
            match TimelineService.playbackSubscription
                    (TimelineService.unsubscribe x) with
            | Some sub' => TimelineService.closed sub' = true
            | None => True
            end).
  { intros x. unfold TimelineService.unsubscribe. cbn.
    destruct (TimelineService.playbackSubscription x); [reflexivity|exact I]. }
  assert (Hkeep : forall x : TimelineService.t,
            TimelineService.playbackSubscription x
            = TimelineService.playbackSubscription ts ->
            match TimelineService.playbackSubscription x with
            | Some sub' =>
                TimelineService.closed sub' = false ->
                TimelineService.playbackSubscription ts = Some sub'
                \/ TimelineService.hasSoloTracks sub'
                   = Timeline.hasAnySoloTracks (TimelineService.timeline x)
            | None => True
            end).
  { intros x Hx. rewrite Hx.
    destruct (TimelineService.playbackSubscription ts); [|exact I].
    intros _. left. reflexivity. }
  assert (Hclosed : forall x : TimelineService.t,
            match TimelineService.playbackSubscription x with
            | Some sub' => TimelineService.closed sub' = true
            | None => True
            end ->
            match TimelineService.playbackSubscription x with
            | Some sub' =>
                TimelineService.closed sub' = false ->
                TimelineService.playbackSubscription ts = Some sub'
                \/ TimelineService.hasSoloTracks sub'
                   = Timeline.hasAnySoloTracks (TimelineService.timeline x)
            | None => True
            end).
  { intros x Hx. destruct (TimelineService.playbackSubscription x); [|exact I].
    intros Hc. rewrite Hc in Hx. discriminate. }
  assert (Hplay : forall now x,
            Timeline.isPlaying (TimelineService.timeline x) = false ->
            match TimelineService.playbackSubscription
                    (fst (TimelineService.play now x)) with
            | Some sub' =>
                TimelineService.closed sub' = false ->
                TimelineService.playbackSubscription ts = Some sub'
                \/ TimelineService.hasSoloTracks sub'
                   = Timeline.hasAnySoloTracks
                       (TimelineService.timeline
                          (fst (TimelineService.play now x)))
            | None => True
            end).
  { intros now x Hx. unfold TimelineService.play. rewrite Hx. cbn.
    intros _. right. reflexivity. }
  destruct e; cbn [TimelineService.handle].
  - destruct (TimelineService.addTrack file decoded generatedId randomColor ts)
      as [x|] eqn:E; cbn [fst]; apply Hkeep; [|reflexivity].
    unfold TimelineService.addTrack in E. destruct decoded; [|discriminate].
    injection E as <-. reflexivity.
  - apply Hkeep. reflexivity.
  - apply Hkeep. reflexivity.
  - apply Hkeep. unfold TimelineService.updateTrackVolume.
    destruct (Timeline.getTrack _ _); reflexivity.
  - apply Hkeep. unfold TimelineService.toggleTrackMute.
    destruct (Timeline.getTrack _ _); [|reflexivity].
    destruct (Timeline.isPlaying _); reflexivity.
  - unfold TimelineService.toggleTrackSolo.
    destruct (Timeline.getTrack _ _); [|apply Hkeep; reflexivity].
    destruct (Timeline.isPlaying _) eqn:Ep; [|apply Hkeep; reflexivity].
    cbn [fst]. apply Hplay.
    match goal with
    | |- context [TimelineService.pause ?x] =>
        destruct (pause_state x Ep) as (Hp & _)
    end.
    exact Hp.
  - destruct (Timeline.isPlaying (TimelineService.timeline ts)) eqn:Ep.
    + apply Hkeep. unfold TimelineService.play. rewrite Ep. reflexivity.
    + apply Hplay. exact Ep.
  - unfold TimelineService.pause.
    destruct (Timeline.isPlaying (TimelineService.timeline ts)); cbn [negb fst];
      [apply Hclosed, Hstop|apply Hkeep; reflexivity].
  - apply Hclosed. unfold TimelineService.stop. cbn [fst]. apply Hstop.
  - unfold TimelineService.seek.
    destruct (Timeline.isPlaying (TimelineService.timeline ts)) eqn:Ep;
      [|apply Hkeep; reflexivity].
    cbn [fst]. apply Hplay.
    destruct (pause_state ts Ep) as (Hp & _).
    cbn. unfold Timeline.setCurrentTime. cbn. exact Hp.
  - apply Hkeep. reflexivity.
  - apply Hclosed. unfold TimelineService.clearAll. cbn [fst].
    unfold TimelineService.with_timeline.
    cbn [TimelineService.playbackSubscription].
    unfold TimelineService.stop. cbn [fst]. apply Hstop.
  - unfold TimelineService.tick.
    destruct (TimelineService.playbackSubscription ts) as [sub|] eqn:Es;
      [|apply Hkeep; exact Es].
    destruct (TimelineService.closed sub); [apply Hkeep; exact Es|].
    destruct (Num.geb _ _); cbn [fst].
    + apply Hclosed. unfold TimelineService.stop. cbn [fst]. apply Hstop.
    + apply Hkeep. exact Es.
  - apply Hkeep. reflexivity.
  - apply Hkeep. reflexivity.
Qed.

(** X26.  A firing of the interval, while the subscription is open, sets
    the position to [max(0, min((now - playbackStartTime) / 1000, duration))]
    and runs a pass there with the solo flag kept with the subscription.
    That flag is the one [play] read: after any method call or event, an
    open subscription is either the one that was open before, unchanged, or
    was opened by the call and carries [hasAnySoloTracks()] of the timeline
    as the call leaves it.  The pass issues no stop and starts the tracks
    that are not registered, decoded, unmuted, soloed when the flag is set,
    active at the position and whose buffer offset is short of their
    duration.  When the position has reached the duration the service then
    stops: the commands are the starts of the pass followed by one stop for
    every source registered after the pass, the position is back at 0, the
    timeline is not playing, the registry is empty and the interval is off.
    Otherwise the starts of the pass are the only commands, the timeline
    keeps its playing flag, no entry is removed or replaced, the started
    ids are added to the registry and the interval stays on.  With no open
    subscription nothing happens. *)
Theorem tick_advances_or_stops (now : Q) (ts : TimelineService.t) :
  let r := TimelineService.tick now ts in
  let tl := TimelineService.timeline ts in
  let a := TimelineService.audioService ts in
  (forall e ts0,
     let ts' := fst (TimelineService.handle e ts0) in
     match TimelineService.playbackSubscription ts' with
     | Some sub' =>
         TimelineService.closed sub' = false ->
         TimelineService.playbackSubscription ts0 = Some sub'
         \/ TimelineService.hasSoloTracks sub'
            = Timeline.hasAnySoloTracks (TimelineService.timeline ts')
     | None => True
     end)
  /\ match TimelineService.playbackSubscription ts with
     | None => r = (ts, [])
     | Some sub =>
         if TimelineService.closed sub then r = (ts, [])
         else
           let position :=
             Qmax 0 (Qmin ((now - TimelineService.playbackStartTime ts) / 1000)
                          (Timeline.duration tl)) in
           let pass :=
             AudioService.updatePlayback (Timeline.tracks tl) position
               (TimelineService.hasSoloTracks sub) a in
           List.existsb AudioService.is_stop (snd pass) = false
           /\ AudioService.started (snd pass)
              = List.map AudioTrack.id
                  (List.filter
                     (fun x =>
                        negb (AudioService.has (AudioTrack.id x) a)
                        && Wanted.starts (TimelineService.hasSoloTracks sub)
                             position x)
                     (Timeline.tracks tl))
           /\ if Num.geb position (Timeline.duration tl) then
                snd r = snd pass ++ snd (AudioService.stopAll (fst pass))
                /\ length (snd (AudioService.stopAll (fst pass)))
                   = size (AudioService.activeSources (fst pass))
                /\ TimelineService.timeline (fst r)
                   = Timeline.mk (Timeline.tracks tl) 0 (Timeline.zoom tl) false
                       (Timeline.bpm tl) (Timeline.duration tl)
                /\ AudioService.activeSources
                     (TimelineService.audioService (fst r)) = ∅
                /\ TimelineService.live (fst r) = false
              else
                snd r = snd pass
                /\ TimelineService.timeline (fst r)
                   = Timeline.mk (Timeline.tracks tl) position (Timeline.zoom tl)
                       (Timeline.isPlaying tl) (Timeline.bpm tl)
                       (Timeline.duration tl)
                /\ TimelineService.live (fst r) = true
                /\ Pass.registered (TimelineService.audioService (fst r))
                   = Pass.registered a
                     ∪ list_to_set (AudioService.started (snd pass))
                /\ AudioService.activeSources a
                   ⊆ AudioService.activeSources
                       (TimelineService.audioService (fst r))
     end.
Proof.
  cbv zeta. split; [intros e ts0; apply (open_subscription_flag e ts0)|].
  unfold TimelineService.tick.
  destruct (TimelineService.playbackSubscription ts) as [sub|] eqn:Es;
    [|reflexivity].
  destruct (TimelineService.closed sub) eqn:Ec; [reflexivity|].
  cbn [Timeline.currentTime Timeline.duration Timeline.setCurrentTime
       Timeline.tracks].
  unfold AudioService.updatePlayback.
  split; [apply pass_no_stop|]. split; [apply pass_starts|].
  destruct (Num.geb _ _) eqn:Eend; cbn [fst snd].
  - match goal with
    | |- context [TimelineService.stop ?x] =>
        destruct (stop_state x) as (_ & Hl & He & Htl)
    end.
    rewrite Htl. split; [reflexivity|].
    split; [cbn; rewrite length_map; apply length_map_to_list|].
    split; [reflexivity|]. split; [exact He|exact Hl].
  - cbn [TimelineService.timeline TimelineService.with_timeline
         TimelineService.audioService TimelineService.with_audio].
    split; [reflexivity|]. split; [reflexivity|]. split.
    + unfold TimelineService.live. cbn. rewrite Es, Ec. reflexivity.
    + split; [apply playTracks_registered|apply playTracks_keeps_entries].
Qed.

Lemma tick_advances_or_stops_witness :
  let ts := TimelineService.run 0
              [TimelineService.OnAddTrack (mkFile "a.wav")
                 (Some (mkAudioBuffer 5)) "a" "#4ECDC4";
               TimelineService.OnToggleTrackSolo "a" 0;
               TimelineService.OnPlay 1000;
               TimelineService.OnRemoveTrack "a";
               TimelineService.OnAddTrack (mkFile "b.wav")
                 (Some (mkAudioBuffer 7)) "b" "#FF6B6B"] in
  Timeline.hasAnySoloTracks (TimelineService.timeline ts) = false
  /\ TimelineService.playbackSubscription ts
     = Some (TimelineService.mkSubscription false true)
  /\ snd (TimelineService.tick 2000 ts) = [].
Proof.
  cbv zeta. split; [reflexivity|]. split; [reflexivity|].
  match goal with
  | |- context [TimelineService.tick 2000 ?x] =>
      pose proof (proj2 (tick_advances_or_stops 2000 x)) as H
  end.
  cbv zeta in H. destruct H as (_ & _ & H).
  match type of H with
  | if ?g then _ else _ =>
      let v := eval vm_compute in g in change g with v in H
  end.
  cbv beta iota in H. destruct H as (H & _).
  rewrite H. reflexivity.
Defined.

(** *** The zoom through the service *)

(** Only [setZoom] writes the zoom. *)
Lemma handle_zoom (e : TimelineService.Event) (ts : TimelineService.t) :
  Timeline.zoom (TimelineService.timeline (fst (TimelineService.handle e ts)))
  = match e with
    | TimelineService.OnSetZoom z => Number.max 10 (Number.min 200 z)
    | _ => Timeline.zoom (TimelineService.timeline ts)
    end.
Proof.
  destruct e as [file decoded gid color|trackId|trackId time|trackId v
                 |trackId|trackId now|now| | |time now|z| |now|source|c];
    cbn [TimelineService.handle].
  - unfold TimelineService.addTrack. destruct decoded as [buffer|]; cbn [fst];
      [|reflexivity].
    cbn [TimelineService.timeline TimelineService.with_timeline].
    unfold Timeline.addTrack. rewrite updateDuration_frame. reflexivity.
  - cbn. unfold Timeline.removeTrack. rewrite updateDuration_frame.
    reflexivity.
  - cbn. unfold Timeline.updateTrackPosition.
    destruct (Timeline.getTrack trackId (TimelineService.timeline ts));
      [|reflexivity].
    rewrite updateDuration_frame. reflexivity.
  - unfold TimelineService.updateTrackVolume.
    destruct (Timeline.getTrack trackId (TimelineService.timeline ts));
      reflexivity.
  - unfold TimelineService.toggleTrackMute.
    destruct (Timeline.getTrack trackId (TimelineService.timeline ts));
      [|reflexivity].
    destruct (Timeline.isPlaying _); reflexivity.
  - unfold TimelineService.toggleTrackSolo.
    destruct (Timeline.getTrack trackId (TimelineService.timeline ts));
      [|reflexivity].
    cbn [Timeline.isPlaying Timeline.with_tracks].
    destruct (Timeline.isPlaying (TimelineService.timeline ts)) eqn:Ep;
      cbn [fst]; [|reflexivity].
    match goal with
    | |- context [TimelineService.pause ?x] =>
        destruct (pause_state x) as (Hp1 & _ & _ & Htl1 & _); [cbn; exact Ep|];
        destruct (play_state now (fst (TimelineService.pause x)) Hp1)
          as (Htl & _)
    end.
    rewrite Htl, Htl1. reflexivity.
  - destruct (Timeline.isPlaying (TimelineService.timeline ts)) eqn:Ep.
    + unfold TimelineService.play. rewrite Ep. reflexivity.
    + destruct (play_state now ts Ep) as (Htl & _). rewrite Htl. reflexivity.
  - destruct (Timeline.isPlaying (TimelineService.timeline ts)) eqn:Ep.
    + destruct (pause_state ts Ep) as (_ & _ & _ & Htl & _). rewrite Htl.
      reflexivity.
    + unfold TimelineService.pause. rewrite Ep. reflexivity.
  - destruct (stop_state ts) as (_ & _ & _ & Htl). rewrite Htl. reflexivity.
  - unfold TimelineService.seek.
    destruct (Timeline.isPlaying (TimelineService.timeline ts)) eqn:Ep;
      cbn [fst]; [|reflexivity].
    destruct (pause_state ts Ep) as (Hp1 & _ & _ & Htl1 & _).
    match goal with
    | |- context [TimelineService.play now ?x] =>
        destruct (play_state now x) as (Htl & _); [cbn; exact Hp1|]
    end.
    rewrite Htl. cbn [TimelineService.timeline TimelineService.with_timeline].
    rewrite Htl1. reflexivity.
  - reflexivity.
  - reflexivity.
  - unfold TimelineService.tick.
    destruct (TimelineService.playbackSubscription ts) as [sub|];
      [|reflexivity].
    destruct (TimelineService.closed sub); [reflexivity|].
    destruct (Num.geb _ _); cbn [fst]; [|reflexivity].
    match goal with
    | |- context [TimelineService.stop ?x] =>
        destruct (stop_state x) as (_ & _ & _ & Htl)
    end.
    rewrite Htl. reflexivity.
  - reflexivity.
  - reflexivity.
Qed.

Lemma fold_handle_zoom_within (events : list TimelineService.Event) :
  forall ts,
    Number.within 10 200 (Timeline.zoom (TimelineService.timeline ts)) ->
    List.Forall (fun e => e <> TimelineService.OnSetZoom Number.NaN) events ->
    Number.within 10 200
      (Timeline.zoom
         (TimelineService.timeline
            (fold_left (fun ts e => fst (TimelineService.handle e ts))
               events ts))).
Proof.
  induction events as [|e events IH]; intros ts Hts Hall; cbn; [exact Hts|].
  apply List.Forall_cons_iff in Hall. destruct Hall as [He Hall].
  apply IH; [|exact Hall]. rewrite handle_zoom.
  destruct e; try exact Hts.
  apply number_clamp_spec; [reflexivity|]. intros ->. apply He. reflexivity.
Qed.

(** X28.  In every state the service can reach from a new one the zoom is
    [NaN] or within [10, 200]; it is within [10, 200] when no call of
    [setZoom] was given [NaN].  After [setZoom(NaN)] the zoom is [NaN], and
    it stays so through calls of other methods. *)
Theorem reachable_zoom_is_clamped_or_NaN (contextNow : Q)
    (events : list TimelineService.Event) :
  let z :=
    Timeline.zoom
      (TimelineService.timeline (TimelineService.run contextNow events)) in
  (z = Number.NaN \/ Number.within 10 200 z)
  /\ (List.Forall (fun e => e <> TimelineService.OnSetZoom Number.NaN) events ->
      Number.within 10 200 z)
  /\ Timeline.zoom
       (TimelineService.timeline
          (TimelineService.run contextNow
             (events ++ [TimelineService.OnSetZoom Number.NaN;
                         TimelineService.OnPlay 0;
                         TimelineService.OnSeek 1 0])))
     = Number.NaN.
Proof.
  cbv zeta. split; [|split].
  - unfold TimelineService.run.
    apply (fold_handle_invariant
             (fun ts =>
                Timeline.zoom (TimelineService.timeline ts) = Number.NaN
                \/ Number.within 10 200
                     (Timeline.zoom (TimelineService.timeline ts)))).
    + intros e ts Hts. rewrite handle_zoom. destruct e; try exact Hts.
      destruct zoom as [| |q|]; [left; reflexivity| | |]; right;
        apply number_clamp_spec; (reflexivity || discriminate).
    + right. cbn. split; discriminate.
  - intros Hall. unfold TimelineService.run.
    apply fold_handle_zoom_within; [cbn; split; discriminate|exact Hall].
  - unfold TimelineService.run. rewrite fold_left_app. cbn [fold_left].
    rewrite !handle_zoom. reflexivity.
Qed.

Lemma reachable_zoom_is_clamped_or_NaN_witness :
  let events := [TimelineService.OnSetZoom 500; TimelineService.OnPlay 0;
                 TimelineService.OnSetZoom Number.NegInfinity] in
  List.Forall (fun e => e <> TimelineService.OnSetZoom Number.NaN) events
  /\ Number.within 10 200
       (Timeline.zoom
          (TimelineService.timeline (TimelineService.run 0 events))).
Proof.
  cbv zeta.
  assert (Hall : List.Forall
                   (fun e => e <> TimelineService.OnSetZoom Number.NaN)
                   [TimelineService.OnSetZoom 500; TimelineService.OnPlay 0;
                    TimelineService.OnSetZoom Number.NegInfinity])
    by (repeat constructor; discriminate).
  split; [exact Hall|].
  destruct (reachable_zoom_is_clamped_or_NaN 0
              [TimelineService.OnSetZoom 500; TimelineService.OnPlay 0;
               TimelineService.OnSetZoom Number.NegInfinity])
    as (_ & H & _).
  exact (H Hall).
Defined.
End ServiceModel.
